(** * AMAPI: the lyric transcoder of [apple.py]

    A shallow embedding of [AppleMusicAPI.to_standard_time] and
    [AppleMusicAPI.ttml_to_lrc] together with the properties the
    specification states about them.

    Conventions of the embedding.
    - A Python [str] is a [string]; every character stands for the code
      point of the same number (0..255).
    - A Python [int] is a [Z].  Conversions between [str] and [int]
      obey the interpreter's default limit of 4300 digits
      ([sys.get_int_max_str_digits()], CPython 3.11 and later): [int()]
      on a longer run of digits and [format] of a longer number raise
      [ValueError].
    - A call that raises is a [Raises e]; a call that returns is a
      [Returns v].  [logger.error] is not observable in either and is
      left out.
    - [xml.etree.ElementTree.fromstring] is a parameter of
      [ttml_to_lrc]: the embedding starts from the tree it returns. *)

From stdpp Require Import gmap strings list.
From Stdlib Require Import ZArith Ascii String Lia QArith_base.

Open Scope Z_scope.

#[local] Arguments String.append !_ _ / : simpl nomatch.

(** ** Python primitives *)

Module Py.

Inductive exn : Set :=
| TypeError
| ValueError
| UnboundLocalError
| ParseError.

Inductive result (A : Type) : Type :=
| Returns (a : A)
| Raises (e : exn).

Arguments Returns {A} a.
Arguments Raises {A} e.

Definition bind {A B : Type} (c : result A) (k : A -> result B) : result B :=
  match c with
  | Returns a => k a
  | Raises e => Raises e
  end.

Definition raises {A : Type} (c : result A) : Prop := exists e, c = Raises e.

(** Characters. *)

Definition is_digit (c : ascii) : bool :=
  (Ascii.leb "0" c && Ascii.leb c "9")%char.

Definition digit_value (c : ascii) : Z := Z.of_N (N_of_ascii c) - 48.

Definition digit_char (d : Z) : ascii := ascii_of_N (Z.to_N (d + 48)).

(** [str.isspace] on the code points below 256. *)
Definition is_space (c : ascii) : bool :=
  let n := N_of_ascii c in
  ((9 <=? n) && (n <=? 13) || (28 <=? n) && (n <=? 32)
   || (n =? 133) || (n =? 160))%N.

Definition dquote : ascii := "034"%char.
Definition nl : string := String "010"%char "".

(** Strings. *)

Fixpoint all_chars (p : ascii -> bool) (s : string) : bool :=
  match s with
  | EmptyString => true
  | String c r => p c && all_chars p r
  end.

Fixpoint filter_chars (p : ascii -> bool) (s : string) : string :=
  match s with
  | EmptyString => EmptyString
  | String c r => if p c then String c (filter_chars p r) else filter_chars p r
  end.

(** The characters other than [c]. *)
Definition is_not (c : ascii) : ascii -> bool := fun a => negb (Ascii.eqb a c).

(** [s.split(sep)] for a one-character separator: every occurrence
    cuts, empty fields are kept, the result is never empty. *)
Fixpoint split (sep : ascii) (s : string) : list string :=
  match s with
  | EmptyString => [EmptyString]
  | String c r =>
      if Ascii.eqb c sep then EmptyString :: split sep r
      else match split sep r with
           | f :: fs => String c f :: fs
           | [] => [String c EmptyString]
           end
  end.

Fixpoint lstrip (s : string) : string :=
  match s with
  | EmptyString => EmptyString
  | String c r => if is_space c then lstrip r else s
  end.

Fixpoint rstrip (s : string) : string :=
  match s with
  | EmptyString => EmptyString
  | String c r =>
      match rstrip r with
      | EmptyString => if is_space c then EmptyString else String c EmptyString
      | r' => String c r'
      end
  end.

(** [s.strip()] *)
Definition strip (s : string) : string := rstrip (lstrip s).

(** [sep.join(l)] *)
Fixpoint join (sep : string) (l : list string) : string :=
  match l with
  | [] => EmptyString
  | [x] => x
  | x :: r => x +:+ sep +:+ join sep r
  end.

(** [''.join(l)] *)
Definition concat_str (l : list string) : string := fold_right String.append EmptyString l.

(** [sub in s] *)
Fixpoint str_in (sub s : string) : bool :=
  String.prefix sub s ||
  match s with
  | EmptyString => false
  | String _ r => str_in sub r
  end.

(** [s[:n]] *)
Fixpoint take_str (n : nat) (s : string) : string :=
  match n, s with
  | S k, String c r => String c (take_str k r)
  | _, _ => EmptyString
  end.

(** Integers. *)

Fixpoint int_acc (acc : Z) (s : string) : Z :=
  match s with
  | EmptyString => acc
  | String c r => int_acc (10 * acc + digit_value c) r
  end.

(** [sys.get_int_max_str_digits()]: the default limit on the number of
    digits in a conversion between [str] and [int]. *)
Definition int_max_str_digits : Z := 4300.

(** A run of [digits] digit characters is within the limit. *)
Definition within_digit_limit (digits : nat) : bool :=
  Z.of_nat digits <=? int_max_str_digits.

(** [int(s)].  The transcoder only applies it to pieces of a string
    made of decimal digits and dots; on those it returns the decimal
    value of a non-empty run of digits within the limit (leading zeros
    count as digits) and raises [ValueError] otherwise. *)
Definition int_ (s : string) : result Z :=
  match s with
  | EmptyString => Raises ValueError
  | _ =>
      if all_chars is_digit s && within_digit_limit (String.length s)
      then Returns (int_acc 0 s)
      else Raises ValueError
  end.

Fixpoint digits_fuel (fuel : nat) (n : Z) : string :=
  match fuel with
  | O => EmptyString
  | S f =>
      (if n <? 10 then EmptyString else digits_fuel f (n / 10))
        +:+ String (digit_char (n mod 10)) EmptyString
  end.

(** [str(n)] for [0 <= n] *)
Definition str_nonneg (n : Z) : string :=
  digits_fuel (S (Z.to_nat (Z.log2 n))) n.

Fixpoint zeros (k : nat) : string :=
  match k with
  | O => EmptyString
  | S k' => String "0"%char (zeros k')
  end.

Definition zfill (width : nat) (s : string) : string :=
  zeros (width - String.length s) +:+ s.

(** The decimal writing of [n] padded to [width]: sign first, then
    zeros up to the width. *)
Definition pad_d (width : nat) (n : Z) : string :=
  if n <? 0 then String "-"%char (zfill (width - 1) (str_nonneg (- n)))
  else zfill width (str_nonneg n).

(** [n] has no more decimal digits than the limit. *)
Definition fits_digit_limit (n : Z) : bool :=
  within_digit_limit (String.length (str_nonneg (Z.abs n))).

(** [f"{n:0{width}d}"]: the conversion of a number with more digits
    than the limit raises [ValueError]. *)
Definition fmt_d (width : nat) (n : Z) : result string :=
  if fits_digit_limit n then Returns (pad_d width n) else Raises ValueError.

(** [a or b] on lists and on optional strings. *)
Definition or_list {A : Type} (a b : list A) : list A :=
  match a with
  | [] => b
  | _ => a
  end.

Definition or_str (a b : option string) : option string :=
  match a with
  | Some EmptyString | None => b
  | Some _ => a
  end.

End Py.

Import Py.

Notation "x <- c ;; k" := (bind c (fun x => k))
  (at level 100, c at next level, right associativity).

(** ** [xml.etree.ElementTree] *)

Module ET.

(** An element as [fromstring] builds it: the tag in [{uri}local]
    form, the attribute dictionary, the text before the first child,
    the text after the end tag, and the children in document order. *)
#[warnings="-register-all"]
Inductive Element : Type :=
  mkElement {
    tag : string;
    attrib : gmap string string;
    text : option string;
    tail : option string;
    children : list Element
  }.

(** [e.get(key)] *)
Definition get (e : Element) (key : string) : option string := attrib e !! key.

(** The elements strictly below [e], in document order: what
    [e.iter()] yields after [e] itself. *)
Fixpoint descendants (e : Element) : list Element :=
  (fix below (cs : list Element) : list Element :=
     match cs with
     | [] => []
     | c :: r => c :: descendants c ++ below r
     end) (children e).

Definition opt_text (t : option string) : list string :=
  match t with
  | Some EmptyString | None => []
  | Some s => [s]
  end.

(** [e.itertext()] *)
Fixpoint itertext (e : Element) : list string :=
  opt_text (text e) ++
  (fix inner (cs : list Element) : list string :=
     match cs with
     | [] => []
     | c :: r => itertext c ++ opt_text (tail c) ++ inner r
     end) (children e).

Definition has_tag (name : string) (e : Element) : bool := String.eqb (tag e) name.

(** [e.findall('.//p:local', namespaces)] with [name] the expanded
    [{uri}local]: every matching element strictly below [e]. *)
Definition findall_descendant (name : string) (e : Element) : list Element :=
  List.filter (has_tag name) (descendants e).

(** [e.findall('local')]: the matching children of [e]. *)
Definition findall_child (name : string) (e : Element) : list Element :=
  List.filter (has_tag name) (children e).

(** [e.find(path)]: the first match or [None]. *)
Definition find_descendant (name : string) (e : Element) : option Element :=
  head (findall_descendant name e).

Definition find_child (name : string) (e : Element) : option Element :=
  head (findall_child name e).

End ET.

Import ET.

(** ** [class AppleMusicAPI] *)

Definition keep_time_char (c : ascii) : bool :=
  is_digit c || Ascii.eqb c "." || Ascii.eqb c ":".

(** What is left of [keep_time_char] inside a colon-separated field. *)
Definition digit_or_dot (c : ascii) : bool := keep_time_char c && is_not ":" c.

(** [re.sub(r'[^0-9.:]', '', time)]; [re.sub] rejects [None]. *)
Definition re_sub_time (time : option string) : result string :=
  match time with
  | None => Raises TypeError
  | Some s => Returns (filter_chars keep_time_char s)
  end.

Definition parse_milliseconds (ms_str : string) : result Z :=
  match String.length ms_str with
  | O => Returns 0
  | 1%nat => v <- int_ ms_str ;; Returns (v * 100)
  | 2%nat => v <- int_ ms_str ;; Returns (v * 10)
  | _ => int_ (take_str 3 ms_str)
  end.

(** The three lines every branch of [to_standard_time] ends with:
    [seconds_parts = field.split('.')], [seconds = int(seconds_parts[0])],
    [milliseconds = parse_milliseconds(seconds_parts[1]) if
    len(seconds_parts) > 1 else 0]. *)
Definition seconds_field (field : string) : result (Z * Z) :=
  let seconds_parts := split "." field in
  seconds <- int_ (List.nth 0 seconds_parts EmptyString) ;;
  milliseconds <-
    (if (1 <? List.length seconds_parts)%nat
     then parse_milliseconds (List.nth 1 seconds_parts EmptyString)
     else Returns 0) ;;
  Returns (seconds, milliseconds).

(** The assignments of the [if]/[elif] chain on [len(times)].  With
    any other number of fields no branch runs and [hours] is unbound
    when [minutes += hours * 60] reads it. *)
Definition time_fields (times : list string) : result (Z * Z * Z * Z) :=
  match times with
  | [t0] =>
      sm <- seconds_field t0 ;;
      Returns (0, 0, fst sm, snd sm)
  | [t0; t1] =>
      minutes <- int_ t0 ;;
      sm <- seconds_field t1 ;;
      Returns (0, minutes, fst sm, snd sm)
  | [t0; t1; t2] =>
      hours <- int_ t0 ;;
      minutes <- int_ t1 ;;
      sm <- seconds_field t2 ;;
      Returns (hours, minutes, fst sm, snd sm)
  | _ => Raises UnboundLocalError
  end.

Definition to_standard_time (time : option string) : result string :=
  _time <- re_sub_time time ;;
  let times := split ":" _time in
  f <- time_fields times ;;
  let '(hours, minutes, seconds, milliseconds) := f in
  let minutes := minutes + hours * 60 in
  let '(minutes, seconds) :=
    if 60 <=? seconds then (minutes + seconds / 60, seconds mod 60)
    else (minutes, seconds) in
  mm <- fmt_d 2 minutes ;;
  ss <- fmt_d 2 seconds ;;
  fff <- fmt_d 3 milliseconds ;;
  Returns (mm +:+ ":" +:+ ss +:+ "." +:+ fff).

(** The [namespaces] dictionary of [ttml_to_lrc], applied: [tt:local]
    expands to [{http://www.w3.org/ns/ttml}local]. *)
Definition tt (local : string) : string := "{http://www.w3.org/ns/ttml}" +:+ local.

Definition itunes_songPart : string := "{http://music.apple.com/lyric-ttml-internal}songPart".

(** The literal [itunes:timing="None"] searched in the raw markup. *)
Definition timing_none : string :=
  "itunes:timing=" +:+ String dquote ("None" +:+ String dquote "").

(** [root.find('.//tt:body', namespaces)], then [root.find('body')]
    when that is [None]. *)
Definition find_body (root : Element) : option Element :=
  match find_descendant (tt "body") root with
  | Some body => Some body
  | None => find_child "body" root
  end.

(** [body.findall('.//tt:div', namespaces) or body.findall('div')] *)
Definition find_divs (body : Element) : list Element :=
  or_list (findall_descendant (tt "div") body) (findall_child "div" body).

(** [div.findall('.//tt:p', namespaces) or div.findall('p')] *)
Definition find_lines (div : Element) : list Element :=
  or_list (findall_descendant (tt "p") div) (findall_child "p" div).

(** [line.findall('.//tt:span', namespaces) or line.findall('span')] *)
Definition find_spans (line : Element) : list Element :=
  or_list (findall_descendant (tt "span") line) (findall_child "span" line).

(** [''.join(line.itertext()).strip()] when [spans] is non-empty,
    [line.text.strip() if line.text else ''] otherwise. *)
Definition line_text (line : Element) : string :=
  match find_spans line with
  | _ :: _ => strip (concat_str (itertext line))
  | [] =>
      match text line with
      | Some EmptyString | None => EmptyString
      | Some t => strip t
      end
  end.

(** The untimed branch: the non-empty texts of the lines of every
    div, in the order the loops visit them. *)
Definition untimed_text_lines (body : Element) : list string :=
  flat_map
    (fun div =>
       List.filter (fun t => negb (String.eqb t EmptyString))
         (map line_text (find_lines div)))
    (find_divs body).

(** An entry of [lrc_body]: the dictionaries with ['type': 'mark'] and
    ['type': 'line']. *)
Inductive lrc_item : Type :=
| Mark (part : string)
| Line (begin end_ : option string) (text_ : string).

Definition song_part (div : Element) : option string :=
  or_str (get div itunes_songPart) (get div "itunes:songPart").

Definition line_item (line : Element) : lrc_item :=
  Line (get line "begin") (get line "end") (line_text line).

(** What one pass of the loop over [divs] appends to [lrc_body]. *)
Definition div_items (div : Element) : list lrc_item :=
  let div_itunes_songPart := song_part div in
  let lines := find_lines div in
  match div_itunes_songPart with
  | Some EmptyString | None => []
  | Some part => [Mark part]
  end ++ map line_item lines.

Definition build_lrc_body (body : Element) : list lrc_item :=
  flat_map div_items (find_divs body).

(** The final loop: [lrc_text += ...] for every item, in order; the
    first [to_standard_time] that raises ends the call. *)
Fixpoint render_lrc (lrc_body : list lrc_item) (lrc_text : string) : result string :=
  match lrc_body with
  | [] => Returns lrc_text
  | Mark part :: rest =>
      render_lrc rest (lrc_text +:+ "[" +:+ part +:+ "]" +:+ nl)
  | Line begin _ text_ :: rest =>
      t <- to_standard_time begin ;;
      render_lrc rest (lrc_text +:+ "[" +:+ t +:+ "]" +:+ text_ +:+ nl)
  end.

Section Transcoder.

(** [ET.fromstring]: [None] when it raises [ParseError]. *)
Variable fromstring : string -> option Element.

Definition ttml_to_lrc (ttml : string) : result string :=
  match ttml with
  | EmptyString => Returns EmptyString
  | _ =>
      match fromstring ttml with
      | None => Raises ParseError
      | Some root =>
          match find_body root with
          | None => Returns EmptyString
          | Some body =>
              if str_in timing_none ttml
              then Returns ("[!text]" +:+ join nl (untimed_text_lines body))
              else render_lrc (build_lrc_body body) EmptyString
          end
      end
  end.

End Transcoder.

(** ** The record parsers: [data_parser_song], [data_parser_album],
    [data_parser_artist]

    Their input is what [response.json()] returns.  A Python [float]
    is an element of a type [F] given with the three operations the
    parsers need; [str.format], [time.time] and [ET.fromstring] are
    given too.  Inside the [try] of a parser every exception ends in
    [return {}], so the body of a parser is an [option]: [None] stands
    for any exception raised there. *)

Notation "x <~ c ;; k" := (match c with Some x => k | None => None end)
  (at level 100, c at next level, right associativity).

Section Catalog.

Variable F : Type.

#[warnings="-register-all"]
Inductive json : Type :=
| JNull
| JBool (b : bool)
| JInt (z : Z)
| JFloat (f : F)
| JStr (s : string)
| JArr (l : list json)
| JObj (o : gmap string json).

(** [f == 0.0] *)
Variable float_is_zero : F -> bool.
(** [z / 1000] on an [int]: [None] for the [OverflowError] of a
    quotient too large for a float. *)
Variable int_truediv_1000 : Z -> option F.
(** [f / 1000] on a [float] *)
Variable float_truediv_1000 : F -> F.
(** [template.format(w=width, h=height, f='jpg')]: [None] when it raises. *)
Variable str_format : string -> json -> json -> option string.
(** [time.time()] *)
Variable now : F.
(** [ET.fromstring] *)
Variable fromstring : string -> option Element.

(** [bool(v)] *)
Definition truthy (v : json) : bool :=
  match v with
  | JNull => false
  | JBool b => b
  | JInt z => negb (z =? 0)
  | JFloat f => negb (float_is_zero f)
  | JStr s => negb (String.eqb s EmptyString)
  | JArr l => match l with [] => false | _ :: _ => true end
  | JObj o => negb (bool_decide (o = ∅))
  end.

Definition is_dict (v : json) : bool :=
  match v with
  | JObj _ => true
  | _ => false
  end.

(** [v.get(key, default)]: only a dict has [get]. *)
Definition dict_get (v : json) (key : string) (default_ : json) : option json :=
  match v with
  | JObj o => Some (default default_ (o !! key))
  | _ => None
  end.

(** What [for x in v] visits: the items of a list, the characters of
    a string, the keys of a dict (in an order the parsers do not
    depend on); anything else is not iterable. *)
Definition py_iter (v : json) : option (list json) :=
  match v with
  | JArr l => Some l
  | JStr s => Some (map (fun c => JStr (String c EmptyString)) (list_ascii_of_string s))
  | JObj o => Some (map (fun kv => JStr (fst kv)) (map_to_list o))
  | _ => None
  end.

(** The loop [for ar in ...: ar_id = ar.get('id'); if ar_id:
    ids.append(ar_id)]. *)
Fixpoint truthy_ids (items : list json) : option (list json) :=
  match items with
  | [] => Some []
  | ar :: rest =>
      ar_id <~ dict_get ar "id" JNull ;;
      ids <~ truthy_ids rest ;;
      Some (if truthy ar_id then ar_id :: ids else ids)
  end.

(** [relationships.get(kind, {}).get('data', [])] and the loop over it. *)
Definition related_ids (relationships : json) (kind : string) : option (list json) :=
  related <~ dict_get relationships kind (JObj ∅) ;;
  data_ <~ dict_get related "data" (JArr []) ;;
  items <~ py_iter data_ ;;
  truthy_ids items.

(** The cover block: [cover_format] and [cover_url].  The inner [try]
    keeps [cover_url = ''] when [format] is missing or raises. *)
Definition cover_of (artwork : json) : option (json * string) :=
  cover_format <~ dict_get artwork "url" (JStr EmptyString) ;;
  width <~ dict_get artwork "width" (JInt 2000) ;;
  height <~ dict_get artwork "height" (JInt 2000) ;;
  Some (cover_format,
        if truthy cover_format then
          match cover_format with
          | JStr template => default EmptyString (str_format template width height)
          | _ => EmptyString
          end
        else EmptyString).

(** [v[0]] for a [v] that is truthy and has a length. *)
Definition first_item (v : json) : option json :=
  match v with
  | JArr (x :: _) => Some x
  | JStr (String c _) => Some (JStr (String c EmptyString))
  | _ => None
  end.

(** [lyrics_ttml_data]: the TTML carried by the song itself. *)
Definition inline_ttml (syllable_lyrics_data : json) : option json :=
  if truthy syllable_lyrics_data then
    first <~ first_item syllable_lyrics_data ;;
    attributes <~ dict_get first "attributes" (JObj ∅) ;;
    dict_get attributes "ttml" (JStr EmptyString)
  else Some (JStr EmptyString).

(** [self.ttml_lyric_cache.get(lyric_path, '')], the cache being keyed
    by path strings; a list or a dict is not hashable. *)
Definition cache_get (ttml_lyric_cache : gmap string json) (lyric_path : json) : option json :=
  match lyric_path with
  | JStr k => Some (default (JStr EmptyString) (ttml_lyric_cache !! k))
  | JArr _ | JObj _ => None
  | _ => Some (JStr EmptyString)
  end.

(** [lyric_path] and [lrc_ttml] *)
Definition song_ttml (ttml_lyric_cache : gmap string json) (relationships : json)
    : option (json * json) :=
  syllable_lyrics <~ dict_get relationships "syllable-lyrics" (JObj ∅) ;;
  lyric_path <~ dict_get syllable_lyrics "href" (JStr EmptyString) ;;
  syllable_lyrics_data <~ dict_get syllable_lyrics "data" (JArr []) ;;
  lyrics_ttml_data <~ inline_ttml syllable_lyrics_data ;;
  lrc_ttml <~ (if truthy lyrics_ttml_data then Some lyrics_ttml_data
               else cache_get ttml_lyric_cache lyric_path) ;;
  Some (lyric_path, lrc_ttml).

(** [self.ttml_to_lrc(lrc_ttml)] on whatever [lrc_ttml] is: a falsy
    value is answered with [''], a string goes through the transcoder,
    anything else is refused by the parser. *)
Definition ttml_to_lrc_value (lrc_ttml : json) : option string :=
  if truthy lrc_ttml then
    match lrc_ttml with
    | JStr ttml =>
        match ttml_to_lrc fromstring ttml with
        | Returns lrc => Some lrc
        | Raises _ => None
        end
    | _ => None
    end
  else Some EmptyString.

(** [v / 1000] *)
Definition truediv_1000 (v : json) : option F :=
  match v with
  | JInt z => int_truediv_1000 z
  | JBool b => int_truediv_1000 (if b then 1 else 0)
  | JFloat f => Some (float_truediv_1000 f)
  | _ => None
  end.

Definition song_record (ttml_lyric_cache : gmap string json) (data : json)
    : option (gmap string json) :=
  attributes <~ dict_get data "attributes" (JObj ∅) ;;
  relationships <~ dict_get data "relationships" (JObj ∅) ;;
  artists_id <~ related_ids relationships "artists" ;;
  albums_id <~ related_ids relationships "albums" ;;
  artwork <~ dict_get attributes "artwork" (JObj ∅) ;;
  cover <~ cover_of artwork ;;
  lyrics <~ song_ttml ttml_lyric_cache relationships ;;
  lrc <~ ttml_to_lrc_value (snd lyrics) ;;
  title <~ dict_get attributes "name" (JStr EmptyString) ;;
  object_id <~ dict_get data "id" (JStr EmptyString) ;;
  album <~ dict_get attributes "albumName" (JStr EmptyString) ;;
  artists <~ dict_get attributes "artistName" (JStr EmptyString) ;;
  composerName <~ dict_get attributes "composerName" (JStr EmptyString) ;;
  durationInMillis <~ dict_get attributes "durationInMillis" (JInt 0) ;;
  duration <~ truediv_1000 durationInMillis ;;
  audioLocale <~ dict_get attributes "audioLocale" (JStr EmptyString) ;;
  isrc <~ dict_get attributes "isrc" (JStr EmptyString) ;;
  discNumber <~ dict_get attributes "discNumber" (JInt 0) ;;
  trackNumber <~ dict_get attributes "trackNumber" (JInt 0) ;;
  genreNames <~ dict_get attributes "genreNames" (JArr []) ;;
  releaseDate <~ dict_get attributes "releaseDate" (JStr EmptyString) ;;
  Some (list_to_map
          [("title", title); ("object_type", JStr "song"); ("object_id", object_id);
           ("album", album); ("album_id", JArr albums_id); ("artists", artists);
           ("artists_id", JArr artists_id); ("composerName", composerName);
           ("cover_format", fst cover); ("cover", JStr (snd cover));
           ("duration", JFloat duration); ("audioLocale", audioLocale);
           ("isrc", isrc); ("discNumber", discNumber); ("trackNumber", trackNumber);
           ("genreNames", genreNames); ("releaseDate", releaseDate);
           ("lyric_path", fst lyrics); ("lrc_ttml", snd lyrics); ("lrc", JStr lrc);
           ("update_time", JFloat now)]).

Definition album_record (data : json) : option (gmap string json) :=
  attributes <~ dict_get data "attributes" (JObj ∅) ;;
  artwork <~ dict_get attributes "artwork" (JObj ∅) ;;
  cover <~ cover_of artwork ;;
  relationships <~ dict_get data "relationships" (JObj ∅) ;;
  artists_id <~ related_ids relationships "artists" ;;
  album <~ dict_get attributes "name" (JStr EmptyString) ;;
  object_id <~ dict_get data "id" (JStr EmptyString) ;;
  artists <~ dict_get attributes "artistName" (JStr EmptyString) ;;
  trackCount <~ dict_get attributes "trackCount" (JInt 0) ;;
  releaseDate <~ dict_get attributes "releaseDate" (JStr EmptyString) ;;
  genreNames <~ dict_get attributes "genreNames" (JArr []) ;;
  Some (list_to_map
          [("album", album); ("object_type", JStr "album"); ("object_id", object_id);
           ("artists", artists); ("artists_id", JArr artists_id);
           ("cover_format", fst cover); ("cover", JStr (snd cover));
           ("trackCount", trackCount); ("releaseDate", releaseDate);
           ("genreNames", genreNames); ("update_time", JFloat now)]).

Definition artist_record (data : json) : option (gmap string json) :=
  attributes <~ dict_get data "attributes" (JObj ∅) ;;
  artwork <~ dict_get attributes "artwork" (JObj ∅) ;;
  cover <~ cover_of artwork ;;
  name <~ dict_get attributes "name" (JStr EmptyString) ;;
  object_id <~ dict_get data "id" (JStr EmptyString) ;;
  genreNames <~ dict_get attributes "genreNames" (JArr []) ;;
  Some (list_to_map
          [("name", name); ("object_type", JStr "artist"); ("object_id", object_id);
           ("cover_format", fst cover); ("cover", JStr (snd cover));
           ("genreNames", genreNames); ("update_time", JFloat now)]).

(** What a parser does with its argument: it returns a dict, or the
    [data.get('id', 'unknown')] of its own [except] clause raises
    [AttributeError]. *)
Inductive parser_outcome : Type :=
| ReturnsDict (record : gmap string json)
| RaisesAttributeError.

(** The [try]/[except] around a body: the record, [{}] when the body
    raised; and when [data] is no dict the handler raises in turn. *)
Definition guarded (data : json) (body : option (gmap string json)) : parser_outcome :=
  match data with
  | JObj _ => ReturnsDict (default ∅ body)
  | _ => RaisesAttributeError
  end.

Definition data_parser_song (ttml_lyric_cache : gmap string json) (data : json)
    : parser_outcome :=
  guarded data (song_record ttml_lyric_cache data).

Definition data_parser_album (data : json) : parser_outcome :=
  guarded data (album_record data).

Definition data_parser_artist (data : json) : parser_outcome :=
  guarded data (artist_record data).

End Catalog.

Arguments JNull {F}.
Arguments JBool {F} b.
Arguments JInt {F} z.
Arguments JFloat {F} f.
Arguments JStr {F} s.
Arguments JArr {F} l.
Arguments JObj {F} o.
Arguments ReturnsDict {F} record.
Arguments RaisesAttributeError {F}.

(** The value under [key] in a dict, [dflt] when the key is absent (or
    when [v] is no dict). *)
Definition member {F : Type} (v : json F) (key : string) (dflt : json F) : json F :=
  match v with
  | JObj o => default dflt (o !! key)
  | _ => dflt
  end.

(** The shapes [data_parser_artist] needs: [attributes] and its
    [artwork], when present, are dicts. *)
Definition artwork_ok {F : Type} (data : json F) : bool :=
  is_dict F (member data "attributes" (JObj ∅))
  && is_dict F (member (member data "attributes" (JObj ∅)) "artwork" (JObj ∅)).

(** The values [/] accepts on the left of [1000]: [int], [bool], [float]. *)
Definition is_number {F : Type} (v : json F) : bool :=
  match v with
  | JInt _ | JBool _ | JFloat _ => true
  | _ => false
  end.

Definition artist_keys : list string :=
  ["name"; "object_type"; "object_id"; "cover_format"; "cover"; "genreNames";
   "update_time"].

Definition song_keys : list string :=
  ["title"; "object_type"; "object_id"; "album"; "album_id"; "artists";
   "artists_id"; "composerName"; "cover_format"; "cover"; "duration";
   "audioLocale"; "isrc"; "discNumber"; "trackNumber"; "genreNames";
   "releaseDate"; "lyric_path"; "lrc_ttml"; "lrc"; "update_time"].

(** A stand-in for [fromstring] that knows one document. *)
Definition parses_as (doc : string) (root : Element) : string -> option Element :=
  fun s => if String.eqb s doc then Some root else None.

Definition elem (name : string) (attrs : list (string * string))
    (txt : option string) (cs : list Element) : Element :=
  mkElement name (list_to_map attrs) txt None cs.

(** The rendering of a time already split in minutes, seconds and
    milliseconds: what the final f-string of [to_standard_time] builds. *)
Definition canonical (minutes seconds milliseconds : Z) : string :=
  pad_d 2 minutes +:+ ":" +:+ pad_d 2 seconds +:+ "." +:+ pad_d 3 milliseconds.

(** ** The transcript in the specification's terms (section 4.3) *)

(** The section marker of a group: [[label]] and a newline when the
    section-part attribute, under its qualified name or else under its
    alias, has a non-empty value; nothing otherwise. *)
Definition marker_line (div : Element) : string :=
  match song_part div with
  | Some EmptyString | None => EmptyString
  | Some label => "[" +:+ label +:+ "]" +:+ nl
  end.

(** The transcript line of a lyric line whose begin normalizes to [t]. *)
Definition timed_line (t : string) (line : Element) : string :=
  "[" +:+ t +:+ "]" +:+ line_text line +:+ nl.

(** A group in the timed transcript, with [nb] giving the normalized
    begin of every line. *)
Definition timed_group (nb : Element -> string) (div : Element) : string :=
  marker_line div +:+ concat_str (map (fun line => timed_line (nb line) line) (find_lines div)).

(** The groups of a document: those found under its body, none when
    it has no body. *)
Definition discovered_groups (root : Element) : list Element :=
  match find_body root with
  | Some body => find_divs body
  | None => []
  end.

Definition is_line (item : lrc_item) : bool :=
  match item with
  | Line _ _ _ => true
  | Mark _ => false
  end.

(** All the text below a line element, trimmed. *)
Definition descendant_text (line : Element) : string := strip (concat_str (itertext line)).

(** ** Sample documents, with the trees [fromstring] builds for them *)

Definition xmlns : string :=
  "xmlns='http://www.w3.org/ns/ttml' xmlns:itunes='http://music.apple.com/lyric-ttml-internal'".

Definition iattr (local : string) : string := "{http://music.apple.com/lyric-ttml-internal}" +:+ local.

(** One group labelled Verse with one line. *)
Definition verse_doc : string :=
  "<tt " +:+ xmlns +:+ "><body><div itunes:songPart='Verse'>"
  +:+ "<p begin='0:01.0' end='0:02.0'>hello</p></div></body></tt>".

Definition verse_tree : Element :=
  elem (tt "tt") [] None
    [elem (tt "body") [] None
       [elem (tt "div") [(iattr "songPart", "Verse")] None
          [elem (tt "p") [("begin", "0:01.0"); ("end", "0:02.0")] (Some "hello") []]]].

(** The same line in a group whose label is empty, and in a group
    without label where the line has no [begin]. *)
Definition empty_label_doc : string :=
  "<tt " +:+ xmlns +:+ "><body><div itunes:songPart=''>"
  +:+ "<p begin='0:01.0' end='0:02.0'>hello</p></div></body></tt>".

Definition empty_label_tree : Element :=
  elem (tt "tt") [] None
    [elem (tt "body") [] None
       [elem (tt "div") [(iattr "songPart", "")] None
          [elem (tt "p") [("begin", "0:01.0"); ("end", "0:02.0")] (Some "hello") []]]].

Definition no_begin_doc : string :=
  "<tt " +:+ xmlns +:+ "><body><div><p end='0:02.0'>hello</p></div></body></tt>".

Definition no_begin_line : Element := elem (tt "p") [("end", "0:02.0")] (Some "hello") [].

Definition no_begin_tree : Element :=
  elem (tt "tt") [] None [elem (tt "body") [] None [elem (tt "div") [] None [no_begin_line]]].

(** An untimed document with the lines a and b. *)
Definition untimed_doc : string :=
  "<tt " +:+ xmlns +:+ " " +:+ timing_none
  +:+ "><body><div><p>a</p><p>b</p></div></body></tt>".

Definition untimed_tree : Element :=
  elem (tt "tt") [(iattr "timing", "None")] None
    [elem (tt "body") [] None
       [elem (tt "div") [] None
          [elem (tt "p") [] (Some "a") []; elem (tt "p") [] (Some "b") []]]].

(** An untimed document whose only line holds a line break and no span. *)
Definition break_doc : string :=
  "<tt " +:+ xmlns +:+ " " +:+ timing_none
  +:+ "><body><div><p>a<br/>b</p></div></body></tt>".

Definition break_line : Element :=
  elem (tt "p") [] (Some "a") [mkElement (tt "br") ∅ None (Some "b") []].

Definition break_tree : Element :=
  elem (tt "tt") [(iattr "timing", "None")] None
    [elem (tt "body") [] None [elem (tt "div") [] None [break_line]]].

(** A document without namespace declaration. *)
Definition plain_doc : string := "<tt><body><div><p begin='1'>x</p></div></body></tt>".

Definition plain_body : Element :=
  elem "body" [] None [elem "div" [] None [elem "p" [("begin", "1")] (Some "x") []]].

Definition plain_tree : Element := elem "tt" [] None [plain_body].

(** A well-formed document without body. *)
Definition head_only_doc : string := "<tt " +:+ xmlns +:+ "><head/></tt>".

Definition head_only_tree : Element := elem (tt "tt") [] None [elem (tt "head") [] None []].

(** The untimed marker on a document without body. *)
Definition marked_head_only_doc : string :=
  "<tt " +:+ xmlns +:+ " " +:+ timing_none +:+ "><head/></tt>".

Definition marked_head_only_tree : Element :=
  elem (tt "tt") [(iattr "timing", "None")] None [elem (tt "head") [] None []].

(** A timed document whose first line has four time fields and whose
    second line has no begin. *)
Definition two_bad_lines_doc : string :=
  "<tt " +:+ xmlns +:+ "><body><div><p begin='1:2:3:4'>a</p><p>b</p></div></body></tt>".

Definition two_bad_lines_body : Element :=
  elem (tt "body") [] None
    [elem (tt "div") [] None
       [elem (tt "p") [("begin", "1:2:3:4")] (Some "a") [];
        elem (tt "p") [] (Some "b") []]].

Definition two_bad_lines_tree : Element := elem (tt "tt") [] None [two_bad_lines_body].

(** A timed document with a group inside a group. *)
Definition nested_doc : string :=
  "<tt " +:+ xmlns +:+ "><body><div><div><p begin='1'>x</p></div></div></body></tt>".

Definition nested_line : Element := elem (tt "p") [("begin", "1")] (Some "x") [].
Definition nested_inner : Element := elem (tt "div") [] None [nested_line].
Definition nested_outer : Element := elem (tt "div") [] None [nested_inner].
Definition nested_body : Element := elem (tt "body") [] None [nested_outer].
Definition nested_tree : Element := elem (tt "tt") [] None [nested_body].

(** A timed document with a line that has no text. *)
Definition silent_doc : string :=
  "<tt " +:+ xmlns +:+ "><body><div><p begin='7' end='8'/></div></body></tt>".

Definition silent_line : Element := elem (tt "p") [("begin", "7"); ("end", "8")] None [].

Definition silent_tree : Element :=
  elem (tt "tt") [] None [elem (tt "body") [] None [elem (tt "div") [] None [silent_line]]].

(** Sample responses, floats being read as rationals. *)
Definition q_is_zero (q : Q) : bool := Qeq_bool q (0 # 1).
Definition q_int_truediv_1000 (z : Z) : option Q := Some (z # 1000).
Definition q_truediv_1000 (q : Q) : Q := Qmult q (1 # 1000).
Definition no_format (template : string) (w h : json Q) : option string := None.

Definition jdict (l : list (string * json Q)) : json Q := JObj (list_to_map l).

(** A song that carries its TTML, here the document with a line
    without begin. *)
Definition song_with_bad_ttml : json Q :=
  jdict [("id", JStr "1");
         ("attributes", jdict [("name", JStr "Song")]);
         ("relationships",
          jdict [("syllable-lyrics",
                  jdict [("href", JStr "/lyrics/1");
                         ("data", JArr [jdict [("attributes",
                                                jdict [("ttml", JStr no_begin_doc)])]])])])].

(** A song that carries the Verse document. *)
Definition song_with_verse : json Q :=
  jdict [("id", JStr "2");
         ("attributes", jdict [("name", JStr "Song"); ("durationInMillis", JInt 215000)]);
         ("relationships",
          jdict [("artists", jdict [("data", JArr [jdict [("id", JStr "a1")];
                                                    jdict [("id", JStr "")];
                                                    jdict [("id", JStr "a2")]])]);
                 ("syllable-lyrics",
                  jdict [("href", JStr "/lyrics/2");
                         ("data", JArr [jdict [("attributes",
                                                jdict [("ttml", JStr verse_doc)])]])])])].

(** An album with three artist entries, one without usable id, and one
    where an entry is not a dict. *)
Definition album_three_artists : json Q :=
  jdict [("id", JStr "9");
         ("relationships",
          jdict [("artists", jdict [("data", JArr [jdict [("id", JStr "a1")];
                                                    jdict [];
                                                    jdict [("id", JStr "a2")]])])])].

Definition artist_null_attributes : json Q :=
  jdict [("id", JStr "7"); ("attributes", JNull)].

(** The artist entries of [album_three_artists]. *)
Definition three_artists : list (json Q) :=
  [jdict [("id", JStr "a1")]; jdict []; jdict [("id", JStr "a2")]].

(** A cache with one transcript, and two [syllable-lyrics] values for
    its path: one that carries its own TTML, one that has the path only. *)
Definition cached_lyrics : gmap string (json Q) :=
  list_to_map [("/lyrics/3", JStr "cached")].

Definition inline_lyrics : gmap string (json Q) :=
  list_to_map
    [("href", JStr "/lyrics/3");
     ("data", JArr [jdict [("attributes", jdict [("ttml", JStr "inline")])]])].

Definition href_only : gmap string (json Q) := list_to_map [("href", JStr "/lyrics/3")].

(** A stand-in for [str.format] that knows one template, at the default
    width and height. *)
Definition formats_as (template url : string) : string -> json Q -> json Q -> option string :=
  fun t w h =>
    match w, h with
    | JInt 2000, JInt 2000 => if String.eqb t template then Some url else None
    | _, _ => None
    end.

(** A song of which only the id is known. *)
Definition song_only_id : gmap string (json Q) := list_to_map [("id", JStr "5")].

(** A song whose [durationInMillis] is a string. *)
Definition song_text_duration_attributes : gmap string (json Q) :=
  list_to_map [("name", JStr "Song"); ("durationInMillis", JStr "215000")].

Definition song_text_duration : gmap string (json Q) :=
  list_to_map [("id", JStr "6"); ("attributes", JObj song_text_duration_attributes)].

(** An artist with an artwork template. *)
Definition artist_artwork : gmap string (json Q) :=
  list_to_map [("url", JStr "a/{w}x{h}.{f}")].

Definition artist_attributes : gmap string (json Q) :=
  list_to_map [("name", JStr "Artist"); ("artwork", JObj artist_artwork)].

Definition artist_with_artwork : gmap string (json Q) :=
  list_to_map [("id", JStr "8"); ("attributes", JObj artist_attributes)].

(** ** The specification's reading of a time string (section 4.1) *)

(** The value of a run of decimal digits. *)
Definition decimal (s : string) : Z := int_acc 0 s.

(** A field that is a number: digits only, at least one, and no more
    than the interpreter converts. *)
Definition number (s : string) : bool :=
  negb (String.eqb s EmptyString) && all_chars is_digit s
  && within_digit_limit (String.length s).

(** The colon-separated fields of the stripped input. *)
Definition fields (s : string) : list string :=
  split ":" (filter_chars keep_time_char s).

(** The seconds field [SS[.fff]]: the text before its first dot and
    the text between its first and second dot. *)
Definition whole_part (field : string) : string := List.nth 0 (split "." field) EmptyString.
Definition frac_part (field : string) : string := List.nth 1 (split "." field) EmptyString.

(** One fractional digit counts hundreds of milliseconds, two count
    tens, and of three or more only the first three are read. *)
Definition frac_millis (frac : string) : Z :=
  match String.length frac with
  | O => 0
  | 1%nat => decimal frac * 100
  | 2%nat => decimal frac * 10
  | _ => decimal (take_str 3 frac)
  end.

(** A seconds field the normalizer reads: at least one digit before
    its first dot, and no more of them than the interpreter converts. *)
Definition seconds_ok (field : string) : bool :=
  negb (String.eqb (whole_part field) EmptyString)
  && within_digit_limit (String.length (whole_part field)).

(** The fields the normalizer reads: one to three, the hours and
    minutes fields numbers, the seconds field as above. *)
Definition valid_fields (times : list string) : bool :=
  match times with
  | [f] => seconds_ok f
  | [m; f] => number m && seconds_ok f
  | [h; m; f] => number h && number m && seconds_ok f
  | _ => false
  end.

(** One field is [SS[.fff]], two are [MM:SS[.fff]], three are
    [HH:MM:SS[.fff]]: the hours, the minutes and the seconds field. *)
Definition read_fields (times : list string) : Z * Z * string :=
  match times with
  | [f] => (0, 0, f)
  | [m; f] => (0, decimal m, f)
  | [h; m; f] => (decimal h, decimal m, f)
  | _ => (0, 0, EmptyString)
  end.

(** The minutes of the result: sixty per hour, the minutes, and the
    whole minutes in the seconds. *)
Definition total_minutes (times : list string) : Z :=
  let '(hours, minutes, f) := read_fields times in
  hours * 60 + minutes + decimal (whole_part f) / 60.

(** The inputs the normalizer accepts: fields it reads, and minutes
    that the final formatting can write. *)
Definition valid_time (s : string) : bool :=
  valid_fields (fields s) && fits_digit_limit (total_minutes (fields s)).

(** The instant a time string denotes, in milliseconds, under the
    reading above. *)
Definition total_millis (s : string) : Z :=
  let '(hours, minutes, f) := read_fields (fields s) in
  ((hours * 60 + minutes) * 60 + decimal (whole_part f)) * 1000
  + frac_millis (frac_part f).

(** The end of [to_standard_time], from the carry on: what it does
    with the four numbers read from the fields. *)
Definition carry_and_format (f : Z * Z * Z * Z) : result string :=
  let '(hours, minutes, seconds, milliseconds) := f in
  let minutes := minutes + hours * 60 in
  let '(minutes, seconds) :=
    if 60 <=? seconds then (minutes + seconds / 60, seconds mod 60)
    else (minutes, seconds) in
  mm <- fmt_d 2 minutes ;;
  ss <- fmt_d 2 seconds ;;
  fff <- fmt_d 3 milliseconds ;;
  Returns (mm +:+ ":" +:+ ss +:+ "." +:+ fff).

(** * Facts about the primitives *)

Section StringFacts.

Implicit Types (s r : string) (c : ascii) (p : ascii -> bool).

Lemma append_empty_r s : s +:+ EmptyString = s.
Proof. induction s as [|c s IH]; simpl; [reflexivity | now rewrite IH]. Qed.

Lemma append_assoc s1 s2 s3 : (s1 +:+ s2) +:+ s3 = s1 +:+ (s2 +:+ s3).
Proof. induction s1 as [|c s1 IH]; simpl; [reflexivity | now rewrite IH]. Qed.

Lemma length_append s1 s2 :
  String.length (s1 +:+ s2) = (String.length s1 + String.length s2)%nat.
Proof. induction s1 as [|c s1 IH]; simpl; [reflexivity | now rewrite IH]. Qed.

Lemma all_chars_append p s1 s2 :
  all_chars p (s1 +:+ s2) = all_chars p s1 && all_chars p s2.
Proof.
  induction s1 as [|c s1 IH]; simpl; [reflexivity|].
  rewrite IH. now rewrite andb_assoc.
Qed.

Lemma all_chars_weaken p q s :
  (forall c, p c = true -> q c = true) ->
  all_chars p s = true -> all_chars q s = true.
Proof.
  intros Hpq. induction s as [|c s IH]; simpl; [reflexivity|].
  rewrite !andb_true_iff. intros [Hc Hs]. split; auto.
Qed.

Lemma filter_chars_all p s : all_chars p (filter_chars p s) = true.
Proof.
  induction s as [|c s IH]; simpl; [reflexivity|].
  destruct (p c) eqn:E; simpl; [now rewrite E|exact IH].
Qed.

Lemma filter_chars_id p s : all_chars p s = true -> filter_chars p s = s.
Proof.
  induction s as [|c s IH]; simpl; [reflexivity|].
  rewrite andb_true_iff. intros [Hc Hs]. rewrite Hc. now rewrite IH.
Qed.

Lemma split_nonempty c s : split c s <> [].
Proof.
  induction s as [|a s IH]; simpl; [discriminate|].
  destruct (Ascii.eqb a c); [discriminate|].
  destruct (split c s); [contradiction|discriminate].
Qed.

Lemma split_no_sep c s : all_chars (is_not c) s = true -> split c s = [s].
Proof.
  induction s as [|a s IH]; simpl; [reflexivity|].
  rewrite andb_true_iff. unfold is_not at 1. intros [Ha Hs].
  destruct (Ascii.eqb a c); [discriminate|]. now rewrite IH.
Qed.

Lemma split_append_sep c s1 s2 :
  all_chars (is_not c) s1 = true ->
  split c (s1 +:+ String c s2) = s1 :: split c s2.
Proof.
  induction s1 as [|a s1 IH]; simpl.
  - intros _. now rewrite Ascii.eqb_refl.
  - rewrite andb_true_iff. unfold is_not at 1. intros [Ha Hs].
    destruct (Ascii.eqb a c); [discriminate|]. now rewrite IH.
Qed.

(** Every field of a split is free of the separator and keeps the
    character class of the string it was cut from. *)
Lemma split_fields c p s :
  all_chars p s = true ->
  Forall (fun f => all_chars p f = true /\ all_chars (is_not c) f = true) (split c s).
Proof.
  induction s as [|a s IH]; simpl.
  - intros _. constructor; [split; reflexivity | constructor].
  - rewrite andb_true_iff. intros [Ha Hs]. specialize (IH Hs).
    destruct (Ascii.eqb a c) eqn:E.
    + constructor; [split; reflexivity | exact IH].
    + destruct (split c s) as [|f fs]; inversion IH; subst.
      * constructor; [|constructor]. simpl. unfold is_not. rewrite Ha, E. now split.
      * constructor; [|assumption]. simpl. unfold is_not at 1. rewrite Ha, E.
        simpl. tauto.
Qed.

Lemma take_str_length n s : (String.length (take_str n s) <= n)%nat.
Proof.
  revert s. induction n as [|n IH]; intros [|c s]; simpl; try lia.
  specialize (IH s). lia.
Qed.

Lemma take_str_all p n s : all_chars p s = true -> all_chars p (take_str n s) = true.
Proof.
  revert s. induction n as [|n IH]; intros [|c s]; simpl; try reflexivity.
  rewrite !andb_true_iff. intros [Hc Hs]. split; auto.
Qed.

Lemma take_str_id n s : (String.length s <= n)%nat -> take_str n s = s.
Proof.
  revert s. induction n as [|n IH]; intros [|c s]; simpl; try reflexivity; try lia.
  intros H. rewrite IH; [reflexivity | lia].
Qed.

End StringFacts.

Section NumberFacts.

Implicit Types (s : string) (c : ascii) (n acc : Z).

Lemma is_digit_value c : is_digit c = true -> 0 <= digit_value c <= 9.
Proof.
  destruct c as [[] [] [] [] [] [] [] []]; vm_compute; intros H;
    try discriminate H; split; discriminate.
Qed.

Lemma digit_char_spec n :
  0 <= n <= 9 -> is_digit (digit_char n) = true /\ digit_value (digit_char n) = n.
Proof.
  intros H. destruct n as [|p|p]; [split; reflexivity | | lia].
  do 4 (destruct p as [p|p|]; try lia; try (split; reflexivity)).
Qed.

Lemma int_acc_append acc s1 s2 :
  int_acc acc (s1 +:+ s2) = int_acc (int_acc acc s1) s2.
Proof. revert acc. induction s1 as [|c s1 IH]; intros acc; simpl; [reflexivity | apply IH]. Qed.

Lemma int_acc_shift acc s :
  int_acc acc s = acc * 10 ^ Z.of_nat (String.length s) + int_acc 0 s.
Proof.
  revert acc. induction s as [|c s IH]; intros acc.
  - simpl. lia.
  - cbn [int_acc String.length]. rewrite (IH (10 * acc + digit_value c)).
    rewrite (IH (10 * 0 + digit_value c)).
    rewrite Nat2Z.inj_succ, Z.pow_succ_r by lia. lia.
Qed.

Lemma int_acc_bounds s :
  all_chars is_digit s = true -> 0 <= int_acc 0 s < 10 ^ Z.of_nat (String.length s).
Proof.
  induction s as [|c s IH].
  - intros _. simpl. lia.
  - cbn [all_chars int_acc String.length]. rewrite andb_true_iff. intros [Hc Hs].
    specialize (IH Hs). apply is_digit_value in Hc.
    rewrite int_acc_shift. rewrite Nat2Z.inj_succ, Z.pow_succ_r by lia.
    nia.
Qed.

Lemma within_digit_limit_spec (k : nat) :
  within_digit_limit k = true <-> Z.of_nat k <= int_max_str_digits.
Proof. unfold within_digit_limit. apply Z.leb_le. Qed.

Lemma within_digit_limit_le (j k : nat) :
  (j <= k)%nat -> within_digit_limit k = true -> within_digit_limit j = true.
Proof. rewrite !within_digit_limit_spec. lia. Qed.

Lemma within_digit_limit_3 (k : nat) : (k <= 3)%nat -> within_digit_limit k = true.
Proof. intros H. apply (within_digit_limit_le k 3 H). reflexivity. Qed.

Lemma int_returns s :
  s <> EmptyString -> all_chars is_digit s = true ->
  within_digit_limit (String.length s) = true ->
  int_ s = Returns (int_acc 0 s).
Proof.
  intros Hne Hd Hl. unfold int_. rewrite Hd, Hl. destruct s; [contradiction | reflexivity].
Qed.

Lemma int_inv s n :
  int_ s = Returns n ->
  s <> EmptyString /\ all_chars is_digit s = true /\ n = int_acc 0 s.
Proof.
  unfold int_. destruct s as [|c s]; [discriminate|].
  destruct (all_chars is_digit (String c s)); [|discriminate].
  destruct (within_digit_limit _); [|discriminate].
  intros [= <-]. split_and!; [discriminate | reflexivity | reflexivity].
Qed.

Lemma int_inv_limit s n :
  int_ s = Returns n -> within_digit_limit (String.length s) = true.
Proof.
  unfold int_. destruct s as [|c s]; [discriminate|].
  destruct (all_chars is_digit (String c s)); [|discriminate].
  destruct (within_digit_limit _); [reflexivity | discriminate].
Qed.

(** [int()] on a run of digits: the limit decides. *)
Lemma int_digits s :
  s <> EmptyString -> all_chars is_digit s = true ->
  int_ s = if within_digit_limit (String.length s)
           then Returns (int_acc 0 s) else Raises ValueError.
Proof. intros Hne Hd. unfold int_. rewrite Hd. destruct s; [contradiction | reflexivity]. Qed.

Lemma int_raises_value_error s e : int_ s = Raises e -> e = ValueError.
Proof.
  unfold int_. destruct s as [|c s]; [now intros [= <-]|].
  destruct (_ && _); [discriminate | now intros [= <-]].
Qed.

(** [digits_fuel] with enough fuel writes [n] in decimal. *)
Lemma digits_fuel_spec fuel n :
  (1 <= fuel)%nat -> 0 <= n < 2 ^ Z.of_nat fuel ->
  digits_fuel fuel n <> EmptyString
  /\ all_chars is_digit (digits_fuel fuel n) = true
  /\ int_acc 0 (digits_fuel fuel n) = n.
Proof.
  revert n. induction fuel as [|f IH]; intros n Hf Hn.
  - lia.
  - cbn [digits_fuel].
    assert (0 <= n mod 10 <= 9) as Hd by (pose proof (Z.mod_pos_bound n 10); lia).
    destruct (digit_char_spec _ Hd) as [Hc Hv].
    destruct (Z.ltb_spec n 10) as [Hlt | Hge].
    + simpl. rewrite Hc, Hv. split_and!; [discriminate | reflexivity |].
      rewrite Z.mod_small; lia.
    + rewrite Nat2Z.inj_succ, Z.pow_succ_r in Hn by lia.
      assert (0 <= n / 10 < 2 ^ Z.of_nat f) as Hq.
      { split; [apply Z.div_pos; lia|]. apply Z.div_lt_upper_bound; lia. }
      assert (1 <= f)%nat as Hf'.
      { destruct f; [simpl in Hn; lia | lia]. }
      destruct (IH _ Hf' Hq) as (Hne & Hall & Hval).
      split_and!.
      * destruct (digits_fuel f (n / 10)); [contradiction | discriminate].
      * rewrite all_chars_append, Hall. simpl. now rewrite Hc.
      * rewrite int_acc_append, Hval. simpl. rewrite Hv.
        pose proof (Z.div_mod n 10). lia.
Qed.

Lemma digits_fuel_length fuel n (k : nat) :
  0 <= n < 10 ^ Z.of_nat k -> (1 <= k)%nat ->
  (String.length (digits_fuel fuel n) <= k)%nat.
Proof.
  revert n k. induction fuel as [|f IH]; intros n k Hn Hk; [simpl; lia|].
  cbn [digits_fuel]. rewrite length_append. simpl.
  destruct (Z.ltb_spec n 10) as [Hlt | Hge]; [simpl; lia|].
  destruct k as [|k]; [lia|].
  rewrite Nat2Z.inj_succ, Z.pow_succ_r in Hn by lia.
  destruct k as [|k]; [simpl in Hn; lia|].
  assert (0 <= n / 10 < 10 ^ Z.of_nat (S k)) as Hq.
  { split; [apply Z.div_pos; lia|]. apply Z.div_lt_upper_bound; lia. }
  specialize (IH _ (S k) Hq). lia.
Qed.

Lemma str_nonneg_spec n :
  0 <= n ->
  str_nonneg n <> EmptyString
  /\ all_chars is_digit (str_nonneg n) = true
  /\ int_acc 0 (str_nonneg n) = n.
Proof.
  intros Hn. unfold str_nonneg. apply digits_fuel_spec; [lia|].
  split; [assumption|].
  rewrite Nat2Z.inj_succ, Z2Nat.id by apply Z.log2_nonneg.
  destruct (Z.eq_dec n 0) as [-> | Hnz]; [reflexivity|].
  apply Z.log2_spec. lia.
Qed.

Lemma zeros_digits k : all_chars is_digit (zeros k) = true.
Proof. induction k as [|k IH]; simpl; [reflexivity | exact IH]. Qed.

Lemma zeros_length k : String.length (zeros k) = k.
Proof. induction k as [|k IH]; simpl; [reflexivity | now rewrite IH]. Qed.

Lemma int_acc_zeros k s : int_acc 0 (zeros k +:+ s) = int_acc 0 s.
Proof. induction k as [|k IH]; simpl; [reflexivity | exact IH]. Qed.

(** [pad_d] on a non-negative number: a non-empty run of digits, at
    least [width] long, that reads back as the number. *)
Lemma pad_d_spec width n :
  0 <= n ->
  pad_d width n <> EmptyString
  /\ all_chars is_digit (pad_d width n) = true
  /\ int_acc 0 (pad_d width n) = n
  /\ (width <= String.length (pad_d width n))%nat.
Proof.
  intros Hn. unfold pad_d.
  destruct (Z.ltb_spec n 0) as [Hlt | _]; [lia|].
  destruct (str_nonneg_spec n Hn) as (Hne & Hall & Hval).
  unfold zfill. split_and!.
  - destruct (zeros _); simpl; [assumption | discriminate].
  - now rewrite all_chars_append, zeros_digits, Hall.
  - now rewrite int_acc_zeros.
  - rewrite length_append, zeros_length. lia.
Qed.

Lemma str_nonneg_length n (k : nat) :
  0 <= n < 10 ^ Z.of_nat k -> (1 <= k)%nat -> (String.length (str_nonneg n) <= k)%nat.
Proof. intros Hn Hk. now apply digits_fuel_length. Qed.

Lemma pad_d_length width n :
  0 <= n < 10 ^ Z.of_nat width -> (1 <= width)%nat ->
  String.length (pad_d width n) = width.
Proof.
  intros Hn Hw. unfold pad_d.
  destruct (Z.ltb_spec n 0) as [Hlt | _]; [lia|].
  unfold zfill. rewrite length_append, zeros_length.
  pose proof (str_nonneg_length n width Hn Hw). lia.
Qed.

(** The padding adds no digit to a number longer than the width. *)
Lemma pad_d_length_max width n :
  0 <= n ->
  String.length (pad_d width n) = Nat.max width (String.length (str_nonneg n)).
Proof.
  intros Hn. unfold pad_d.
  destruct (Z.ltb_spec n 0) as [Hlt | _]; [lia|].
  unfold zfill. rewrite length_append, zeros_length. lia.
Qed.

Lemma fits_digit_limit_nonneg n :
  0 <= n -> fits_digit_limit n = within_digit_limit (String.length (str_nonneg n)).
Proof. intros Hn. unfold fits_digit_limit. now rewrite Z.abs_eq. Qed.

Lemma fits_digit_limit_small n : 0 <= n < 1000 -> fits_digit_limit n = true.
Proof.
  intros Hn. rewrite fits_digit_limit_nonneg by lia.
  apply within_digit_limit_3, str_nonneg_length; [|lia].
  change (10 ^ Z.of_nat 3) with 1000. exact Hn.
Qed.

(** What the limit means for a number: it is below [10 ^ 4300]. *)
Lemma fits_digit_limit_bound n :
  0 <= n -> (fits_digit_limit n = true <-> n < 10 ^ int_max_str_digits).
Proof.
  intros Hn. rewrite fits_digit_limit_nonneg, within_digit_limit_spec by assumption.
  destruct (str_nonneg_spec n Hn) as (Hne & Hall & Hval).
  pose proof (int_acc_bounds _ Hall) as Hb. rewrite Hval in Hb.
  assert (0 <= int_max_str_digits) as Hmax by discriminate.
  split.
  - intros Hl. eapply Z.lt_le_trans; [apply Hb|].
    apply Z.pow_le_mono_r; lia.
  - intros Hlt. rewrite <- (Z2Nat.id int_max_str_digits Hmax) in Hlt |- *.
    apply Nat2Z.inj_le, str_nonneg_length; [lia|].
    apply Nat2Z.inj_le. rewrite Z2Nat.id by assumption. discriminate.
Qed.

Lemma fmt_d_fits width n : fits_digit_limit n = true -> fmt_d width n = Returns (pad_d width n).
Proof. unfold fmt_d. now intros ->. Qed.

Lemma fmt_d_small width n : 0 <= n < 1000 -> fmt_d width n = Returns (pad_d width n).
Proof. intros Hn. apply fmt_d_fits, fits_digit_limit_small, Hn. Qed.

Lemma fmt_d_raises width n e : fmt_d width n = Raises e -> e = ValueError.
Proof. unfold fmt_d. destruct (fits_digit_limit n); [discriminate | now intros [= <-]]. Qed.

(** A written number reads back, the limit being the same both ways. *)
Lemma int_pad_d width n :
  0 <= n -> (width <= 3)%nat -> fits_digit_limit n = true ->
  int_ (pad_d width n) = Returns n.
Proof.
  intros Hn Hw Hfit. destruct (pad_d_spec width n Hn) as (Hne & Hall & Hval & _).
  rewrite int_returns; [now rewrite Hval | assumption | assumption |].
  rewrite pad_d_length_max by assumption.
  rewrite fits_digit_limit_nonneg in Hfit by assumption.
  destruct (Nat.max_spec width (String.length (str_nonneg n))) as [[_ ->] | [_ ->]];
    [assumption | apply within_digit_limit_3; lia].
Qed.

End NumberFacts.

(** * Facts about [to_standard_time] *)

Section TimeFacts.

Implicit Types (s f : string) (c : ascii).

Lemma all_chars_and (p q : ascii -> bool) s :
  all_chars p s = true -> all_chars q s = true ->
  all_chars (fun c => p c && q c) s = true.
Proof.
  induction s as [|c s IH]; simpl; [reflexivity|].
  rewrite !andb_true_iff. intros [-> Hp] [-> Hq]. auto.
Qed.

Lemma digit_or_dot_no_dot c :
  digit_or_dot c && is_not "." c = true -> is_digit c = true.
Proof.
  unfold digit_or_dot, keep_time_char, is_not.
  destruct (is_digit c); [reflexivity|].
  destruct (Ascii.eqb c "."), (Ascii.eqb c ":"); simpl; intros H; discriminate H.
Qed.

Lemma is_digit_keep c : is_digit c = true -> keep_time_char c = true.
Proof. unfold keep_time_char. now intros ->. Qed.

Lemma is_digit_no_sep c : is_digit c = true -> is_not ":" c = true /\ is_not "." c = true.
Proof.
  destruct c as [[] [] [] [] [] [] [] []]; vm_compute; intros H;
    try discriminate H; split; reflexivity.
Qed.

(** The fields of the stripped input hold digits and dots only. *)
Lemma fields_chars s : Forall (fun f => all_chars digit_or_dot f = true) (fields s).
Proof.
  unfold fields.
  pose proof (split_fields ":" keep_time_char _ (filter_chars_all keep_time_char s)) as H.
  eapply List.Forall_impl; [|exact H]. intros f [H1 H2]. now apply all_chars_and.
Qed.

(** The dot-separated parts of such a field hold digits only. *)
Lemma parts_digits f :
  all_chars digit_or_dot f = true ->
  Forall (fun part => all_chars is_digit part = true) (split "." f).
Proof.
  intros Hf. pose proof (split_fields "." digit_or_dot f Hf) as H.
  eapply List.Forall_impl; [|exact H]. intros part [H1 H2].
  eapply all_chars_weaken; [|exact (all_chars_and _ _ _ H1 H2)].
  intros c. apply digit_or_dot_no_dot.
Qed.

Lemma nth_digits (n : nat) (l : list string) :
  Forall (fun part => all_chars is_digit part = true) l ->
  all_chars is_digit (List.nth n l EmptyString) = true.
Proof.
  intros H. revert n. induction H as [|x l Hx _ IH]; intros [|n]; simpl; auto.
Qed.

Lemma frac_millis_bounds frac :
  all_chars is_digit frac = true -> 0 <= frac_millis frac < 1000.
Proof.
  intros Hd. unfold frac_millis, decimal.
  destruct frac as [|c1 [|c2 [|c3 r]]].
  - simpl. lia.
  - pose proof (int_acc_bounds _ Hd) as H. simpl String.length in *.
    change (10 ^ Z.of_nat 1) with 10 in H. lia.
  - pose proof (int_acc_bounds _ Hd) as H. simpl String.length in *.
    change (10 ^ Z.of_nat 2) with 100 in H. lia.
  - cbn [String.length].
    pose proof (int_acc_bounds _ (take_str_all is_digit 3 _ Hd)) as H.
    cbn [take_str String.length] in H.
    change (10 ^ Z.of_nat 3) with 1000 in H. exact H.
Qed.

Lemma parse_milliseconds_digits frac :
  all_chars is_digit frac = true ->
  parse_milliseconds frac = Returns (frac_millis frac).
Proof.
  intros Hd. unfold parse_milliseconds, frac_millis, decimal.
  destruct frac as [|c1 [|c2 [|c3 r]]]; cbn [String.length].
  - reflexivity.
  - rewrite int_returns; [reflexivity | discriminate | assumption | reflexivity].
  - rewrite int_returns; [reflexivity | discriminate | assumption | reflexivity].
  - rewrite int_returns; [reflexivity | discriminate | now apply take_str_all |].
    apply within_digit_limit_3, take_str_length.
Qed.

Lemma parse_milliseconds_inv ms_str v :
  parse_milliseconds ms_str = Returns v -> 0 <= v < 1000.
Proof.
  unfold parse_milliseconds.
  destruct ms_str as [|c1 [|c2 [|c3 r]]]; cbn [String.length].
  - intros [= <-]. lia.
  - destruct (int_ _) as [n|e] eqn:E; simpl; [|discriminate]. intros [= <-].
    apply int_inv in E as (_ & Hd & ->).
    pose proof (int_acc_bounds _ Hd) as H. simpl String.length in H.
    change (10 ^ Z.of_nat 1) with 10 in H. lia.
  - destruct (int_ _) as [n|e] eqn:E; simpl; [|discriminate]. intros [= <-].
    apply int_inv in E as (_ & Hd & ->).
    pose proof (int_acc_bounds _ Hd) as H. simpl String.length in H.
    change (10 ^ Z.of_nat 2) with 100 in H. lia.
  - intros E. apply int_inv in E as (_ & Hd & ->).
    pose proof (int_acc_bounds _ Hd) as H. cbn [take_str String.length] in H.
    change (10 ^ Z.of_nat 3) with 1000 in H. exact H.
Qed.

Lemma nth_1_short (l : list string) :
  (1 <? List.length l)%nat = false -> List.nth 1 l EmptyString = EmptyString.
Proof. destruct l as [|a [|b l]]; simpl; intros H; [reflexivity | reflexivity | discriminate]. Qed.

(** The seconds field of a stripped input. *)
Lemma seconds_ok_spec f :
  seconds_ok f = true
  <-> whole_part f <> EmptyString /\ within_digit_limit (String.length (whole_part f)) = true.
Proof.
  unfold seconds_ok. rewrite andb_true_iff, negb_true_iff, String.eqb_neq. reflexivity.
Qed.

Lemma seconds_field_valid f :
  all_chars digit_or_dot f = true ->
  seconds_ok f = true ->
  seconds_field f = Returns (decimal (whole_part f), frac_millis (frac_part f)).
Proof.
  intros Hf Hok. apply seconds_ok_spec in Hok as [Hw Hl].
  unfold seconds_field, whole_part, frac_part in *.
  pose proof (parts_digits f Hf) as Hparts.
  rewrite int_returns by (auto using nth_digits). cbn [bind].
  destruct (1 <? List.length (split "." f))%nat eqn:E.
  - rewrite parse_milliseconds_digits by (auto using nth_digits). reflexivity.
  - rewrite (nth_1_short _ E). reflexivity.
Qed.

Lemma seconds_field_inv f sec ms :
  seconds_field f = Returns (sec, ms) -> 0 <= sec /\ 0 <= ms < 1000.
Proof.
  unfold seconds_field.
  destruct (int_ _) as [n|e] eqn:E; cbn [bind]; [|discriminate].
  apply int_inv in E as (_ & Hd & ->).
  pose proof (int_acc_bounds _ Hd) as Hn.
  destruct (1 <? _)%nat.
  - destruct (parse_milliseconds _) as [v|e] eqn:E; cbn [bind]; [|discriminate].
    intros [= <- <-]. apply parse_milliseconds_inv in E. lia.
  - cbn [bind]. intros [= <- <-]. lia.
Qed.

Lemma parse_milliseconds_raises ms_str e :
  parse_milliseconds ms_str = Raises e -> e = ValueError.
Proof.
  unfold parse_milliseconds.
  destruct (String.length ms_str) as [|[|[|k]]];
    [discriminate | | | apply int_raises_value_error];
    (destruct (int_ ms_str) eqn:E1; cbn [bind];
     [discriminate | intros [= <-]; eauto using int_raises_value_error]).
Qed.

Lemma seconds_field_raises f e : seconds_field f = Raises e -> e = ValueError.
Proof.
  unfold seconds_field.
  destruct (int_ _) as [n|e1] eqn:E; cbn [bind].
  - destruct (1 <? _)%nat; cbn [bind]; [|discriminate].
    destruct (parse_milliseconds _) eqn:E1; cbn [bind]; [discriminate|].
    intros [= <-]. eauto using parse_milliseconds_raises.
  - intros [= <-]. eauto using int_raises_value_error.
Qed.

(** The carry of [to_standard_time], in one formula. *)
Lemma carry_seconds (minutes seconds : Z) :
  0 <= seconds ->
  (if 60 <=? seconds then (minutes + seconds / 60, seconds mod 60) else (minutes, seconds))
  = (minutes + seconds / 60, seconds mod 60).
Proof.
  intros H. destruct (Z.leb_spec 60 seconds) as [Hge | Hlt]; [reflexivity|].
  rewrite Z.div_small, Z.mod_small by lia. f_equal. lia.
Qed.

Lemma time_fields_inv times h m sec ms :
  time_fields times = Returns (h, m, sec, ms) ->
  0 <= h /\ 0 <= m /\ 0 <= sec /\ 0 <= ms < 1000.
Proof.
  assert (Hint : forall x n, int_ x = Returns n -> 0 <= n).
  { intros x n E. apply int_inv in E as (_ & Hd & ->).
    pose proof (int_acc_bounds _ Hd). lia. }
  destruct times as [|t0 [|t1 [|t2 [|t3 r]]]]; cbn [time_fields]; try discriminate.
  - destruct (seconds_field t0) as [[xs xm]|] eqn:E; cbn [bind fst snd]; [|discriminate].
    intros [= <- <- <- <-]. apply seconds_field_inv in E. lia.
  - destruct (int_ t0) eqn:E0; cbn [bind]; [|discriminate].
    destruct (seconds_field t1) as [[xs xm]|] eqn:E; cbn [bind fst snd]; [|discriminate].
    intros [= <- <- <- <-]. apply seconds_field_inv in E. apply Hint in E0. lia.
  - destruct (int_ t0) eqn:E0; cbn [bind]; [|discriminate].
    destruct (int_ t1) eqn:E1; cbn [bind]; [|discriminate].
    destruct (seconds_field t2) as [[xs xm]|] eqn:E; cbn [bind fst snd]; [|discriminate].
    intros [= <- <- <- <-]. apply seconds_field_inv in E.
    apply Hint in E0. apply Hint in E1. lia.
Qed.

Lemma number_spec s :
  number s = true
  <-> s <> EmptyString /\ all_chars is_digit s = true
      /\ within_digit_limit (String.length s) = true.
Proof.
  unfold number. rewrite !andb_true_iff, negb_true_iff, String.eqb_neq. tauto.
Qed.

Lemma number_int s : number s = true -> int_ s = Returns (decimal s).
Proof. intros H. apply number_spec in H as (Hne & Hd & Hl). now apply int_returns. Qed.

Lemma time_fields_valid times :
  Forall (fun f => all_chars digit_or_dot f = true) times ->
  valid_fields times = true ->
  time_fields times
  = Returns (let '(h, m, f) := read_fields times in
             (h, m, decimal (whole_part f), frac_millis (frac_part f))).
Proof.
  intros Hc Hv.
  destruct times as [|t0 [|t1 [|t2 [|t3 r]]]]; cbn [valid_fields] in Hv; try discriminate;
    cbn [time_fields read_fields];
    repeat match goal with
           | H : Forall _ (_ :: _) |- _ => inversion H; subst; clear H
           | H : _ && _ = true |- _ => apply andb_true_iff in H as [? ?]
           end;
    repeat rewrite number_int by assumption; cbn [bind];
    rewrite seconds_field_valid by assumption; reflexivity.
Qed.

(** The end of [to_standard_time] on numbers read from fields: the
    formatting of the minutes decides. *)
Lemma carry_and_format_spec h m sec ms :
  0 <= sec -> 0 <= ms < 1000 ->
  carry_and_format (h, m, sec, ms)
  = if fits_digit_limit (h * 60 + m + sec / 60)
    then Returns (canonical (h * 60 + m + sec / 60) (sec mod 60) ms)
    else Raises ValueError.
Proof.
  intros Hs Hms. unfold carry_and_format. rewrite carry_seconds by assumption.
  replace (m + h * 60 + sec / 60) with (h * 60 + m + sec / 60) by lia.
  unfold fmt_d at 1. destruct (fits_digit_limit _); [|reflexivity]. cbn [bind].
  pose proof (Z.mod_pos_bound sec 60 ltac:(lia)).
  rewrite !fmt_d_small by lia. reflexivity.
Qed.

(** What [to_standard_time] does once the fields are read. *)
Lemma to_standard_time_of_fields s h m sec ms :
  time_fields (fields s) = Returns (h, m, sec, ms) ->
  to_standard_time (Some s)
  = if fits_digit_limit (h * 60 + m + sec / 60)
    then Returns (canonical (h * 60 + m + sec / 60) (sec mod 60) ms)
    else Raises ValueError.
Proof.
  intros E. pose proof (time_fields_inv _ _ _ _ _ E) as (Hh & Hm & Hs & Hms).
  rewrite <- carry_and_format_spec by assumption.
  unfold to_standard_time, re_sub_time. cbn [bind]. fold (fields s). rewrite E. reflexivity.
Qed.

(** On a valid input the reading of the specification is returned. *)
Lemma to_standard_time_valid s :
  valid_time s = true ->
  let '(h, m, f) := read_fields (fields s) in
  to_standard_time (Some s)
  = Returns (canonical (h * 60 + m + decimal (whole_part f) / 60)
               (decimal (whole_part f) mod 60) (frac_millis (frac_part f))).
Proof.
  unfold valid_time, total_minutes. rewrite andb_true_iff. intros [Hv Hfit].
  pose proof (time_fields_valid _ (fields_chars s) Hv) as E.
  destruct (read_fields (fields s)) as [[h m] f].
  now rewrite (to_standard_time_of_fields _ _ _ _ _ E), Hfit.
Qed.

(** An exception of [to_standard_time] on a string: [ValueError] with
    one to three fields, [UnboundLocalError] with more. *)
Lemma to_standard_time_raises s e :
  to_standard_time (Some s) = Raises e ->
  time_fields (fields s) = Raises e
  \/ (e = ValueError /\ exists r, time_fields (fields s) = Returns r).
Proof.
  destruct (time_fields (fields s)) as [[[[h m] sec] ms]|e'] eqn:E.
  - rewrite (to_standard_time_of_fields _ _ _ _ _ E).
    destruct (fits_digit_limit _); [discriminate|]. intros [= <-]. right. eauto.
  - unfold to_standard_time, re_sub_time. cbn [bind]. fold (fields s). rewrite E.
    cbn [bind]. intros [= <-]. now left.
Qed.

(** A result of [to_standard_time] is the rendering of a time in range. *)
Lemma to_standard_time_inv (time : option string) y :
  to_standard_time time = Returns y ->
  exists m sec ms,
    0 <= m /\ 0 <= sec < 60 /\ 0 <= ms < 1000 /\ fits_digit_limit m = true
    /\ y = canonical m sec ms.
Proof.
  destruct time as [s|]; [|discriminate].
  destruct (time_fields (fields s)) as [[[[h m] sec] ms]|e] eqn:E.
  - rewrite (to_standard_time_of_fields _ _ _ _ _ E).
    destruct (fits_digit_limit _) eqn:Hfit; [|discriminate]. intros [= <-].
    apply time_fields_inv in E as (Hh & Hm & Hs & Hms).
    exists (h * 60 + m + sec / 60), (sec mod 60), ms.
    pose proof (Z.mod_pos_bound sec 60). pose proof (Z.div_pos sec 60).
    split_and!; try lia; [assumption | reflexivity].
  - unfold to_standard_time, re_sub_time. cbn [bind]. fold (fields s). rewrite E.
    discriminate.
Qed.

(** The fractional rule is truncation to milliseconds. *)
Lemma frac_millis_floor frac :
  all_chars is_digit frac = true ->
  frac_millis frac = decimal frac * 1000 / 10 ^ Z.of_nat (String.length frac).
Proof.
  intros Hd. unfold frac_millis, decimal.
  destruct frac as [|c1 [|c2 [|c3 r]]].
  - reflexivity.
  - cbn [String.length]. change (10 ^ Z.of_nat 1) with 10.
    replace (int_acc 0 (String c1 "") * 1000) with (int_acc 0 (String c1 "") * 100 * 10) by lia.
    now rewrite Z.div_mul.
  - cbn [String.length]. change (10 ^ Z.of_nat 2) with 100.
    replace (int_acc 0 (String c1 (String c2 "")) * 1000)
      with (int_acc 0 (String c1 (String c2 "")) * 10 * 100) by lia.
    now rewrite Z.div_mul.
  - cbn [String.length take_str].
    set (a := String c1 (String c2 (String c3 ""))).
    change (String c1 (String c2 (String c3 r))) with (a +:+ r).
    rewrite int_acc_append, (int_acc_shift (int_acc 0 a) r).
    assert (all_chars is_digit r = true) as Hr.
    { cbn [all_chars] in Hd. rewrite !andb_true_iff in Hd. tauto. }
    pose proof (int_acc_bounds r Hr) as Hb.
    rewrite !Nat2Z.inj_succ, !Z.pow_succ_r by lia.
    set (p := 10 ^ Z.of_nat (String.length r)) in *.
    replace ((int_acc 0 a * p + int_acc 0 r) * 1000)
      with (1000 * (int_acc 0 a * p + int_acc 0 r)) by lia.
    replace (10 * (10 * (10 * p))) with (1000 * p) by lia.
    rewrite Z.div_mul_cancel_l by lia.
    rewrite Z.div_add_l by lia. rewrite (Z.div_small (int_acc 0 r)) by lia. lia.
Qed.

(** The rendering of a time in range is a fixed point. *)
Lemma canonical_fields m sec ms :
  0 <= m -> 0 <= sec -> 0 <= ms ->
  fields (canonical m sec ms) = [pad_d 2 m; pad_d 2 sec +:+ "." +:+ pad_d 3 ms].
Proof.
  intros Hm Hs Hms.
  destruct (pad_d_spec 2 m Hm) as (_ & Dm & _).
  destruct (pad_d_spec 2 sec Hs) as (_ & Ds & _).
  destruct (pad_d_spec 3 ms Hms) as (_ & Dms & _).
  assert (Hno : forall x, all_chars is_digit x = true -> all_chars (is_not ":") x = true).
  { intros x. apply all_chars_weaken. intros c Hc. now apply is_digit_no_sep. }
  unfold fields, canonical. rewrite filter_chars_id.
  - change (":" +:+ ?x) with (String ":" x).
    rewrite split_append_sep by auto. f_equal.
    apply split_no_sep. rewrite !all_chars_append. cbn [all_chars].
    rewrite !Hno by assumption. reflexivity.
  - rewrite !all_chars_append. cbn [all_chars].
    rewrite !(all_chars_weaken _ _ _ is_digit_keep) by assumption. reflexivity.
Qed.

Lemma canonical_fixed m sec ms :
  0 <= m -> 0 <= sec < 60 -> 0 <= ms < 1000 -> fits_digit_limit m = true ->
  to_standard_time (Some (canonical m sec ms)) = Returns (canonical m sec ms).
Proof.
  intros Hm Hs Hms Hfit.
  destruct (pad_d_spec 2 m Hm) as (Nm & Dm & Vm & _).
  destruct (pad_d_spec 2 sec (proj1 Hs)) as (Ns & Ds & Vs & _).
  destruct (pad_d_spec 3 ms (proj1 Hms)) as (Nms & Dms & Vms & _).
  assert (Hdot : split "." (pad_d 2 sec +:+ "." +:+ pad_d 3 ms) = [pad_d 2 sec; pad_d 3 ms]).
  { change ("." +:+ ?x) with (String "." x).
    assert (Hno : forall x, all_chars is_digit x = true -> all_chars (is_not ".") x = true).
    { intros x. apply all_chars_weaken. intros c Hc. now apply is_digit_no_sep. }
    rewrite split_append_sep by auto. f_equal. apply split_no_sep. auto. }
  assert (E : time_fields (fields (canonical m sec ms)) = Returns (0, m, sec, ms)).
  { rewrite canonical_fields by lia. cbn [time_fields].
    rewrite int_pad_d by (assumption || lia). cbn [bind]. unfold seconds_field. rewrite Hdot.
    cbn [List.nth List.length Nat.ltb Nat.leb bind].
    rewrite int_pad_d by (lia || apply fits_digit_limit_small; lia). cbn [bind].
    rewrite parse_milliseconds_digits by assumption.
    unfold frac_millis. rewrite (pad_d_length 3 ms) by (simpl; lia).
    rewrite take_str_id by (rewrite (pad_d_length 3 ms); simpl; lia).
    unfold decimal. rewrite Vms. reflexivity. }
  rewrite (to_standard_time_of_fields _ _ _ _ _ E).
  rewrite Z.div_small, Z.mod_small by lia.
  replace (0 * 60 + m + 0) with m by lia. now rewrite Hfit.
Qed.

End TimeFacts.

(** * The timecode normalizer *)

Lemma read_fields_seconds_in times :
  valid_fields times = true -> In (snd (read_fields times)) times.
Proof.
  destruct times as [|t0 [|t1 [|t2 [|t3 r]]]]; cbn [valid_fields read_fields snd];
    try discriminate; intros _; simpl; tauto.
Qed.

Lemma total_minutes_nonneg (s : string) :
  valid_fields (fields s) = true -> 0 <= total_minutes (fields s).
Proof.
  intros Hv. pose proof (time_fields_valid _ (fields_chars s) Hv) as E.
  unfold total_minutes. destruct (read_fields (fields s)) as [[h m] f].
  apply time_fields_inv in E as (Hh & Hm & Hs & _).
  pose proof (Z.div_pos (decimal (whole_part f)) 60 Hs ltac:(lia)). lia.
Qed.

(** C1, as amended.  On an input whose stripped form has one, two or
    three fields, with hours and minutes fields that are numbers and
    a seconds field that has a digit before its first dot, none of
    these runs of digits longer than the interpreter's limit and the
    minutes of the result below ten to the power of that limit,
    [to_standard_time] returns [MM:SS.fff]: one field is seconds, two
    are minutes and seconds, three are hours, minutes and seconds with
    sixty minutes per hour; a fraction of one digit counts hundreds of
    milliseconds, of two digits tens, of three or more its first three
    digits, without rounding; whole minutes in the seconds are carried
    and the seconds left are below sixty; minutes are written on two
    digits or more, seconds on two, milliseconds on three.  The three
    examples of the docstring hold. *)
Theorem to_standard_time_valid_input :
  (forall s : string, valid_time s = true ->
     let '(hours, minutes, f) := read_fields (fields s) in
     let seconds := decimal (whole_part f) in
     let milliseconds := frac_millis (frac_part f) in
     let mm := pad_d 2 (hours * 60 + minutes + seconds / 60) in
     let ss := pad_d 2 (seconds mod 60) in
     let fff := pad_d 3 milliseconds in
     to_standard_time (Some s) = Returns (mm +:+ ":" +:+ ss +:+ "." +:+ fff)
     /\ milliseconds
        = decimal (frac_part f) * 1000 / 10 ^ Z.of_nat (String.length (frac_part f))
     /\ 0 <= seconds mod 60 < 60 /\ 0 <= milliseconds < 1000
     /\ (2 <= String.length mm)%nat /\ String.length ss = 2%nat
     /\ String.length fff = 3%nat
     /\ all_chars is_digit mm = true /\ all_chars is_digit ss = true
     /\ all_chars is_digit fff = true
     /\ decimal mm = hours * 60 + minutes + seconds / 60
     /\ decimal ss = seconds mod 60 /\ decimal fff = milliseconds)
  /\ (forall s : string,
        valid_time s = true
        <-> valid_fields (fields s) = true
            /\ total_minutes (fields s) < 10 ^ int_max_str_digits)
  /\ to_standard_time (Some "47.243") = Returns "00:47.243"
  /\ to_standard_time (Some "04:24.638") = Returns "04:24.638"
  /\ to_standard_time (Some "1:2:3.4") = Returns "62:03.400".
Proof.
  split; [|split; [|repeat split; vm_compute; reflexivity]].
  - intros s Hv. pose proof (to_standard_time_valid s Hv) as Hret.
    unfold valid_time in Hv. apply andb_true_iff in Hv as [Hv _].
    pose proof (time_fields_valid _ (fields_chars s) Hv) as E.
    pose proof (read_fields_seconds_in _ Hv) as Hin.
    destruct (read_fields (fields s)) as [[hours minutes] f]. cbn [snd] in Hin.
    cbv zeta.
    pose proof (time_fields_inv _ _ _ _ _ E) as (Hh & Hm & Hs & Hms).
    assert (all_chars is_digit (frac_part f) = true) as Hfrac.
    { apply nth_digits, parts_digits.
      pose proof (fields_chars s) as Hall. rewrite List.Forall_forall in Hall. auto. }
    pose proof (Z.mod_pos_bound (decimal (whole_part f)) 60 ltac:(lia)) as Hmod.
    pose proof (Z.div_pos (decimal (whole_part f)) 60 Hs ltac:(lia)) as Hdiv.
    set (total := hours * 60 + minutes + decimal (whole_part f) / 60) in *.
    assert (0 <= total) as Htotal by (unfold total; lia).
    destruct (pad_d_spec 2 total Htotal) as (_ & Dm & Vm & Lm).
    destruct (pad_d_spec 2 _ (proj1 Hmod)) as (_ & Ds & Vs & _).
    destruct (pad_d_spec 3 _ (proj1 Hms)) as (_ & Dms & Vms & _).
    split_and!; try assumption; try lia.
    + now apply frac_millis_floor.
    + apply pad_d_length; [simpl; lia | lia].
    + apply pad_d_length; [simpl; lia | lia].
  - intros s. unfold valid_time. rewrite andb_true_iff. split.
    + intros [Hv Hfit]. split; [assumption|].
      now apply fits_digit_limit_bound; [apply total_minutes_nonneg|].
    + intros [Hv Hlt]. split; [assumption|].
      now apply fits_digit_limit_bound; [apply total_minutes_nonneg|].
Qed.

Lemma to_standard_time_valid_input_witness :
  valid_time "00:75.000" = true
  /\ to_standard_time (Some "00:75.000") = Returns "01:15.000".
Proof.
  split; [reflexivity|].
  pose proof (proj1 to_standard_time_valid_input "00:75.000" eq_refl) as H.
  vm_compute in H. exact (proj1 H).
Defined.

(** C1 as stated fails: the stripped form of the empty string is one
    (empty) field, that of ["1.5:30"] is two fields, and on both
    [int()] raises, so nothing is returned. *)
Lemma to_standard_time_rejects_malformed_field :
  List.length (fields "") = 1%nat
  /\ to_standard_time (Some "") = Raises ValueError
  /\ List.length (fields "1.5:30") = 2%nat
  /\ to_standard_time (Some "1.5:30") = Raises ValueError.
Proof. repeat split; vm_compute; reflexivity. Qed.

(** C6, as amended.  Normalizing twice is normalizing once: whatever
    the first call does, feeding its result back gives the same
    outcome; on the valid inputs the first call returns, and what it
    returns is left unchanged by a second call. *)
Theorem to_standard_time_idempotent (x : string) :
  (y <- to_standard_time (Some x) ;; to_standard_time (Some y))
  = to_standard_time (Some x)
  /\ (valid_time x = true ->
      exists y, to_standard_time (Some x) = Returns y
                /\ to_standard_time (Some y) = Returns y).
Proof.
  assert (Hfix : forall y, to_standard_time (Some x) = Returns y ->
                           to_standard_time (Some y) = Returns y).
  { intros y Hy.
    apply to_standard_time_inv in Hy as (m & sec & ms & Hm & Hs & Hms & Hfit & ->).
    now apply canonical_fixed. }
  split.
  - destruct (to_standard_time (Some x)) as [y|e] eqn:E; cbn [bind]; auto.
  - intros Hv. pose proof (to_standard_time_valid x Hv) as E.
    destruct (read_fields (fields x)) as [[h m] f].
    eexists. split; [exact E|]. apply Hfix. exact E.
Qed.

Lemma to_standard_time_idempotent_witness :
  valid_time "1:2:3.4" = true
  /\ exists y, to_standard_time (Some "1:2:3.4") = Returns y
               /\ to_standard_time (Some y) = Returns y.
Proof.
  split; [reflexivity|].
  exact (proj2 (to_standard_time_idempotent "1:2:3.4") eq_refl).
Defined.

(** C6 as stated fails: the stripped form of [":30"] has two fields,
    the first call raises on the empty minutes field, and so there is
    no result to normalize again and nothing for the two sides of the
    equation to be. *)
Lemma to_standard_time_nothing_to_renormalize :
  List.length (fields ":30") = 2%nat
  /\ to_standard_time (Some ":30") = Raises ValueError
  /\ (y <- to_standard_time (Some ":30") ;; to_standard_time (Some y)) = Raises ValueError
  /\ forall y, to_standard_time (Some ":30") <> Returns y.
Proof. split_and!; try (vm_compute; reflexivity). intros y. vm_compute. discriminate. Qed.

(** C9, as amended.  When the stripped input has a number of fields
    other than one, two or three, [to_standard_time] returns nothing:
    it raises the interpreter's [UnboundLocalError], for the local
    that no branch assigned. *)
Theorem to_standard_time_field_count (s : string) :
  ~ (1 <= List.length (fields s) <= 3)%nat ->
  to_standard_time (Some s) = Raises UnboundLocalError
  /\ forall y, to_standard_time (Some s) <> Returns y.
Proof.
  intros Hn.
  assert (to_standard_time (Some s) = Raises UnboundLocalError) as E.
  { unfold to_standard_time, re_sub_time. cbn [bind]. fold (fields s).
    destruct (fields s) as [|t0 [|t1 [|t2 [|t3 r]]]]; simpl in Hn; try lia; reflexivity. }
  split; [exact E|]. intros y. rewrite E. discriminate.
Qed.

Lemma to_standard_time_field_count_witness :
  List.length (fields "1:2:3:4") = 4%nat
  /\ to_standard_time (Some "1:2:3:4") = Raises UnboundLocalError.
Proof.
  split; [reflexivity|].
  apply (to_standard_time_field_count "1:2:3:4"). vm_compute. lia.
Defined.

(** C9 as stated fails: on ["1:2:3:4"] every field is a number, no
    field is looked at, and the error is not one the program defines
    for a time: it is the [UnboundLocalError] of the statement after
    the branches, not the [ValueError] a malformed field gets. *)
Lemma to_standard_time_four_fields_error :
  fields "1:2:3:4" = ["1"; "2"; "3"; "4"]
  /\ Forall (fun f => number f = true) (fields "1:2:3:4")
  /\ time_fields (fields "1:2:3:4") = Raises UnboundLocalError
  /\ to_standard_time (Some "1:2:3:4") = Raises UnboundLocalError
  /\ to_standard_time (Some "1:2:3:4") <> Raises ValueError.
Proof.
  split_and!; try (vm_compute; reflexivity).
  - repeat constructor.
  - vm_compute. discriminate.
Qed.

(** * Facts about the transcoder *)

Section StripFacts.

Implicit Types (s t : string).

Lemma lstrip_spaces s : all_chars is_space (lstrip s) = all_chars is_space s.
Proof.
  induction s as [|c s IH]; simpl; [reflexivity|].
  destruct (is_space c) eqn:E; simpl; [exact IH | now rewrite E].
Qed.

Lemma rstrip_empty s : rstrip s = EmptyString <-> all_chars is_space s = true.
Proof.
  induction s as [|c s IH]; simpl; [tauto|].
  destruct (rstrip s) as [|c' r].
  - destruct (is_space c); simpl; [tauto|].
    split; discriminate.
  - split; [discriminate|]. rewrite andb_true_iff. intros [_ H].
    apply IH in H. discriminate H.
Qed.

(** [strip] leaves nothing exactly when there is only white space. *)
Lemma strip_empty s : strip s = EmptyString <-> all_chars is_space s = true.
Proof. unfold strip. rewrite rstrip_empty, lstrip_spaces. reflexivity. Qed.

Lemma strip_empty_prefix s t : strip (s +:+ t) = EmptyString -> strip s = EmptyString.
Proof.
  rewrite !strip_empty, all_chars_append, andb_true_iff. tauto.
Qed.

End StripFacts.

Section TreeFacts.

Implicit Types (e line div body : Element).

Lemma itertext_unfold e :
  exists rest, itertext e = opt_text (text e) ++ rest
               /\ (children e = [] -> rest = []).
Proof.
  destruct e as [tg at_ tx tl cs]. simpl. eexists. split; [reflexivity|].
  now intros ->.
Qed.

Lemma descendants_leaf e : children e = [] -> descendants e = [].
Proof. destruct e as [tg at_ tx tl cs]. simpl. now intros ->. Qed.

(** A line without text below it has an empty [line_text]. *)
Lemma line_text_silent line : descendant_text line = EmptyString -> line_text line = EmptyString.
Proof.
  unfold descendant_text, line_text. intros H.
  destruct (find_spans line); [|exact H].
  destruct (itertext_unfold line) as (rest & E & _). rewrite E in H.
  destruct (text line) as [[|c t]|]; try reflexivity.
  cbn [opt_text app concat_str fold_right] in H.
  now apply strip_empty_prefix in H.
Qed.

(** With a span found, or with no child element at all, [line_text]
    is all the text below the line, trimmed. *)
Lemma line_text_descendant line :
  find_spans line <> [] \/ children line = [] ->
  line_text line = descendant_text line.
Proof.
  unfold descendant_text, line_text. intros [Hs | Hc].
  - destruct (find_spans line); [contradiction | reflexivity].
  - assert (find_spans line = []) as ->.
    { unfold find_spans, findall_descendant, findall_child.
      now rewrite descendants_leaf, Hc. }
    destruct (itertext_unfold line) as (rest & E & Hr). rewrite E, (Hr Hc).
    destruct (text line) as [[|c t]|]; try reflexivity.
    cbn [opt_text app concat_str fold_right]. now rewrite append_empty_r.
Qed.

End TreeFacts.

Section RenderFacts.

Implicit Types (items : list lrc_item) (acc : string) (nb : Element -> string).

Lemma render_lrc_app items1 items2 acc :
  render_lrc (items1 ++ items2) acc
  = (a <- render_lrc items1 acc ;; render_lrc items2 a).
Proof.
  revert acc. induction items1 as [|[part | b e t] r IH]; intros acc; cbn [app render_lrc bind].
  - reflexivity.
  - apply IH.
  - destruct (to_standard_time b); cbn [bind]; [apply IH | reflexivity].
Qed.

Lemma render_lines nb (lines : list Element) acc :
  (forall line, In line lines -> to_standard_time (get line "begin") = Returns (nb line)) ->
  render_lrc (map line_item lines) acc
  = Returns (acc +:+ concat_str (map (fun line => timed_line (nb line) line) lines)).
Proof.
  revert acc. induction lines as [|l r IH]; intros acc H.
  - simpl. now rewrite append_empty_r.
  - cbn [map line_item render_lrc]. rewrite (H l) by (left; reflexivity). cbn [bind].
    rewrite IH by (intros; apply H; right; assumption).
    cbn [concat_str fold_right]. unfold timed_line. f_equal.
    rewrite !append_assoc. reflexivity.
Qed.

Lemma render_div nb div acc :
  (forall line, In line (find_lines div) ->
                to_standard_time (get line "begin") = Returns (nb line)) ->
  render_lrc (div_items div) acc = Returns (acc +:+ timed_group nb div).
Proof.
  intros H. unfold div_items, timed_group, marker_line.
  rewrite render_lrc_app.
  destruct (song_part div) as [[|c label]|]; cbn [render_lrc bind].
  - now rewrite (render_lines nb).
  - rewrite (render_lines nb) by assumption. f_equal. rewrite !append_assoc. reflexivity.
  - now rewrite (render_lines nb).
Qed.

Lemma render_divs nb (divs : list Element) acc :
  (forall div line, In div divs -> In line (find_lines div) ->
                    to_standard_time (get line "begin") = Returns (nb line)) ->
  render_lrc (flat_map div_items divs) acc
  = Returns (acc +:+ concat_str (map (timed_group nb) divs)).
Proof.
  revert acc. induction divs as [|d r IH]; intros acc H.
  - simpl. now rewrite append_empty_r.
  - cbn [flat_map map]. rewrite render_lrc_app.
    rewrite (render_div nb) by (intros; apply (H d); [left; reflexivity | assumption]).
    cbn [bind]. rewrite IH by (intros; eapply H; [right; eassumption | assumption]).
    cbn [concat_str fold_right]. now rewrite append_assoc.
Qed.

(** An item without [begin] stops the rendering. *)
Lemma render_lrc_no_begin items e t acc :
  In (Line None e t) items -> raises (render_lrc items acc).
Proof.
  revert acc. induction items as [|[part | b e' t'] r IH]; intros acc Hin.
  - destruct Hin.
  - destruct Hin as [Heq | Hin]; [discriminate|]. cbn [render_lrc]. now apply IH.
  - cbn [render_lrc]. destruct Hin as [Heq | Hin].
    + injection Heq as -> -> ->. exists TypeError. reflexivity.
    + destruct (to_standard_time b) as [ts|err]; cbn [bind]; [now apply IH|].
      now exists err.
Qed.

Lemma line_item_in_body body div line :
  In div (find_divs body) -> In line (find_lines div) ->
  In (line_item line) (build_lrc_body body).
Proof.
  intros Hd Hl. unfold build_lrc_body. apply in_flat_map. exists div. split; [assumption|].
  unfold div_items. apply in_or_app. right. now apply in_map.
Qed.

Lemma filter_lines_div div : List.filter is_line (div_items div) = map line_item (find_lines div).
Proof.
  unfold div_items. rewrite List.filter_app.
  assert (List.filter is_line (map line_item (find_lines div)) = map line_item (find_lines div)) as ->.
  { induction (find_lines div) as [|l r IH]; simpl; [reflexivity | now rewrite IH]. }
  destruct (song_part div) as [[|c label]|]; reflexivity.
Qed.

(** [lrc_body] holds one line entry per discovered line, in order. *)
Lemma filter_lines_body body :
  List.filter is_line (build_lrc_body body)
  = map line_item (flat_map find_lines (find_divs body)).
Proof.
  unfold build_lrc_body. induction (find_divs body) as [|d r IH]; [reflexivity|].
  cbn [flat_map]. rewrite List.filter_app, List.map_app, filter_lines_div, IH. reflexivity.
Qed.

End RenderFacts.

Section TranscoderFacts.

Variable fromstring : string -> option Element.

(** Past the guards, the raw string alone picks the branch. *)
Lemma ttml_to_lrc_body ttml root body :
  ttml <> EmptyString -> fromstring ttml = Some root -> find_body root = Some body ->
  ttml_to_lrc fromstring ttml
  = if str_in timing_none ttml
    then Returns ("[!text]" +:+ join nl (untimed_text_lines body))
    else render_lrc (build_lrc_body body) EmptyString.
Proof.
  intros Hne Hp Hb. unfold ttml_to_lrc. rewrite Hp, Hb.
  destruct ttml; [contradiction | reflexivity].
Qed.

(** The timed transcript when every begin normalizes. *)
Lemma ttml_to_lrc_timed ttml root body (nb : Element -> string) :
  ttml <> EmptyString -> fromstring ttml = Some root -> find_body root = Some body ->
  str_in timing_none ttml = false ->
  (forall div line, In div (find_divs body) -> In line (find_lines div) ->
                    to_standard_time (get line "begin") = Returns (nb line)) ->
  ttml_to_lrc fromstring ttml
  = Returns (concat_str (map (timed_group nb) (find_divs body))).
Proof.
  intros Hne Hp Hb Ht Hnb. rewrite (ttml_to_lrc_body _ _ _ Hne Hp Hb), Ht.
  unfold build_lrc_body. now rewrite (render_divs nb).
Qed.

End TranscoderFacts.

Lemma render_lrc_returns_inv (items : list lrc_item) (acc out : string) b e t :
  render_lrc items acc = Returns out -> In (Line b e t) items ->
  exists ts, to_standard_time b = Returns ts.
Proof.
  revert acc. induction items as [|[part | b' e' t'] r IH]; intros acc Hr Hin.
  - destruct Hin.
  - destruct Hin as [Heq | Hin]; [discriminate|]. cbn [render_lrc] in Hr. eauto.
  - cbn [render_lrc] in Hr.
    destruct (to_standard_time b') as [ts|err] eqn:E; cbn [bind] in Hr; [|discriminate].
    destruct Hin as [Heq | Hin]; [|eauto].
    injection Heq as -> -> ->. now exists ts.
Qed.

Lemma untimed_text_lines_flat (body : Element) :
  untimed_text_lines body
  = List.filter (fun t => negb (String.eqb t EmptyString))
      (map line_text (flat_map find_lines (find_divs body))).
Proof.
  unfold untimed_text_lines. induction (find_divs body) as [|d r IH]; [reflexivity|].
  cbn [flat_map]. now rewrite List.map_app, List.filter_app, IH.
Qed.

(** * The transcoder *)

(** C2, as amended.  In a timed document (parsed, no untimed marker
    in the raw markup) whose discovered lines all have a begin that
    [to_standard_time] normalizes, [ttml_to_lrc] returns, for each
    group in lookup order, first [[label]] and a newline when the
    section-part attribute (qualified name, else the alias) has a
    non-empty value, then for each line [[normalized begin]text] and a
    newline; neither the end attribute nor any other attribute of the
    line reaches the line of the transcript.  The Verse example gives
    exactly the two lines of the specification. *)
Theorem ttml_to_lrc_timed_transcript :
  (forall (fromstring : string -> option Element) ttml root (nb : Element -> string),
     ttml <> EmptyString -> fromstring ttml = Some root ->
     str_in timing_none ttml = false ->
     (forall div line, In div (discovered_groups root) -> In line (find_lines div) ->
                       to_standard_time (get line "begin") = Returns (nb line)) ->
     ttml_to_lrc fromstring ttml
     = Returns (concat_str
                  (map (fun div =>
                          marker_line div +:+
                          concat_str (map (fun line => "[" +:+ nb line +:+ "]" +:+ line_text line +:+ nl)
                                        (find_lines div)))
                     (discovered_groups root))))
  /\ (forall div label,
        label <> EmptyString ->
        get div itunes_songPart = Some label
        \/ ((get div itunes_songPart = None \/ get div itunes_songPart = Some EmptyString)
            /\ get div "itunes:songPart" = Some label) ->
        marker_line div = "[" +:+ label +:+ "]" +:+ nl)
  /\ (forall div,
        (get div itunes_songPart = None \/ get div itunes_songPart = Some EmptyString) ->
        (get div "itunes:songPart" = None \/ get div "itunes:songPart" = Some EmptyString) ->
        marker_line div = EmptyString)
  /\ (forall tg attrs attrs' tx tl cs,
        line_text (mkElement tg attrs tx tl cs) = line_text (mkElement tg attrs' tx tl cs))
  /\ ttml_to_lrc (parses_as verse_doc verse_tree) verse_doc
     = Returns ("[Verse]" +:+ nl +:+ "[00:01.000]hello" +:+ nl).
Proof.
  split_and!.
  - intros fromstring ttml root nb Hne Hp Ht Hnb. unfold discovered_groups in *.
    destruct (find_body root) as [body|] eqn:Hb.
    + exact (ttml_to_lrc_timed fromstring ttml root body nb Hne Hp Hb Ht Hnb).
    + unfold ttml_to_lrc. rewrite Hp, Hb. destruct ttml; reflexivity.
  - intros div label Hl H. unfold marker_line, song_part.
    destruct H as [-> | [[-> | ->] ->]]; cbn [or_str];
      destruct label; try contradiction; reflexivity.
  - intros div. unfold marker_line, song_part.
    intros [-> | ->] [-> | ->]; reflexivity.
  - reflexivity.
  - vm_compute. reflexivity.
Qed.

Lemma ttml_to_lrc_timed_transcript_witness :
  ttml_to_lrc (parses_as plain_doc plain_tree) plain_doc
  = Returns ("[00:01.000]x" +:+ nl).
Proof.
  pose proof (proj1 ttml_to_lrc_timed_transcript
                (parses_as plain_doc plain_tree) plain_doc plain_tree
                (fun _ => "00:01.000")) as H.
  assert (plain_doc <> EmptyString) as H1 by discriminate.
  specialize (H H1 eq_refl eq_refl). rewrite H.
  - vm_compute. reflexivity.
  - intros div line Hd Hl. vm_compute in Hd. destruct Hd as [<- | []].
    vm_compute in Hl. destruct Hl as [<- | []]. vm_compute. reflexivity.
Defined.

(** C2 as stated fails on two timed documents: a line without begin
    makes the call raise instead of emitting the line, and a group
    whose section-part attribute is empty gets no marker line. *)
Lemma ttml_to_lrc_timed_exceptions :
  str_in timing_none no_begin_doc = false
  /\ find_lines (elem (tt "div") [] None [no_begin_line]) = [no_begin_line]
  /\ ttml_to_lrc (parses_as no_begin_doc no_begin_tree) no_begin_doc = Raises TypeError
  /\ str_in timing_none empty_label_doc = false
  /\ get (elem (tt "div") [(iattr "songPart", "")] None []) itunes_songPart = Some EmptyString
  /\ ttml_to_lrc (parses_as empty_label_doc empty_label_tree) empty_label_doc
     = Returns ("[00:01.000]hello" +:+ nl).
Proof. split_and!; vm_compute; reflexivity. Qed.

(** C3, as amended.  When the tree has no body, neither below the
    root under the qualified name nor among the children of the root
    under the bare name, [ttml_to_lrc] returns the empty string and
    raises nothing; a body found by either lookup is used. *)
Theorem ttml_to_lrc_no_body (fromstring : string -> option Element) ttml root :
  fromstring ttml = Some root ->
  (findall_descendant (tt "body") root = [] -> findall_child "body" root = [] ->
   ttml_to_lrc fromstring ttml = Returns EmptyString)
  /\ (find_body root = None
      <-> findall_descendant (tt "body") root = [] /\ findall_child "body" root = []).
Proof.
  intros Hp.
  assert (Hnone : find_body root = None
                  <-> findall_descendant (tt "body") root = []
                      /\ findall_child "body" root = []).
  { unfold find_body, find_descendant, find_child.
    destruct (findall_descendant (tt "body") root) as [|b r]; cbn [head].
    - destruct (findall_child "body" root); cbn [head]; split.
      + intros _. now split.
      + reflexivity.
      + discriminate.
      + intros [_ H]. discriminate H.
    - split; [discriminate | intros [H _]; discriminate H]. }
  split; [|exact Hnone].
  intros Hq Hu. unfold ttml_to_lrc. rewrite Hp.
  rewrite (proj2 Hnone (conj Hq Hu)). destruct ttml; reflexivity.
Qed.

Lemma ttml_to_lrc_no_body_witness :
  ttml_to_lrc (parses_as head_only_doc head_only_tree) head_only_doc = Returns EmptyString.
Proof.
  apply (proj1 (ttml_to_lrc_no_body (parses_as head_only_doc head_only_tree)
                  head_only_doc head_only_tree eq_refl)); reflexivity.
Defined.

(** C3 as stated fails: a well-formed document without body makes
    [ttml_to_lrc] return the empty string, not raise. *)
Lemma ttml_to_lrc_no_body_returns_empty :
  find_descendant (tt "body") head_only_tree = None
  /\ find_child "body" head_only_tree = None
  /\ ttml_to_lrc (parses_as head_only_doc head_only_tree) head_only_doc = Returns EmptyString
  /\ ~ raises (ttml_to_lrc (parses_as head_only_doc head_only_tree) head_only_doc).
Proof.
  split_and!; try (vm_compute; reflexivity).
  intros [e H]. vm_compute in H. discriminate H.
Qed.

(** C4, as amended.  Once the markup is parsed and a body found, the
    document is treated as untimed exactly when the raw string holds
    the literal [itunes:timing="None"], whatever the tree: then the
    result is [[!text]] followed by the non-empty texts of the
    discovered lines, in order across groups, joined by single
    newlines; otherwise it is the timed rendering.  The text of a line
    is all the text below it, trimmed, when a span lookup finds an
    element (and when the line has no child element at all); without a
    span it is the trimmed text that precedes the first child.  A text
    is empty exactly when it was white space only.  The untimed
    document with the lines a and b gives the marker followed by a,
    newline, b. *)
Theorem ttml_to_lrc_untimed :
  (forall (fromstring : string -> option Element) ttml root body,
     ttml <> EmptyString -> fromstring ttml = Some root -> find_body root = Some body ->
     (str_in timing_none ttml = true ->
      ttml_to_lrc fromstring ttml
      = Returns ("[!text]" +:+
                 join nl (List.filter (fun t => negb (String.eqb t EmptyString))
                            (map line_text (flat_map find_lines (find_divs body))))))
     /\ (str_in timing_none ttml = false ->
         ttml_to_lrc fromstring ttml = render_lrc (build_lrc_body body) EmptyString))
  /\ (forall line, find_spans line <> [] \/ children line = [] ->
                   line_text line = descendant_text line)
  /\ (forall line, find_spans line = [] ->
                   line_text line = match text line with
                                    | Some t => strip t
                                    | None => EmptyString
                                    end)
  /\ (forall s, strip s = EmptyString <-> all_chars is_space s = true)
  /\ ttml_to_lrc (parses_as untimed_doc untimed_tree) untimed_doc
     = Returns ("[!text]" +:+ "a" +:+ nl +:+ "b").
Proof.
  split_and!.
  - intros fromstring ttml root body Hne Hp Hb.
    rewrite (ttml_to_lrc_body fromstring ttml root body Hne Hp Hb).
    split; intros ->; [|reflexivity]. now rewrite untimed_text_lines_flat.
  - exact line_text_descendant.
  - intros line H. unfold line_text. rewrite H.
    destruct (text line) as [[|c t]|]; reflexivity.
  - exact strip_empty.
  - vm_compute. reflexivity.
Qed.

Lemma ttml_to_lrc_untimed_witness :
  ttml_to_lrc (parses_as untimed_doc untimed_tree) untimed_doc
  = Returns ("[!text]" +:+ "a" +:+ nl +:+ "b").
Proof.
  assert (untimed_doc <> EmptyString) as H1 by discriminate.
  pose proof (proj1 (proj1 ttml_to_lrc_untimed
                       (parses_as untimed_doc untimed_tree) untimed_doc untimed_tree
                       (elem (tt "body") [] None
                          [elem (tt "div") [] None
                             [elem (tt "p") [] (Some "a") []; elem (tt "p") [] (Some "b") []]])
                       H1 eq_refl eq_refl) eq_refl) as H.
  rewrite H. vm_compute. reflexivity.
Defined.

(** C4 as stated fails: in an untimed document a line holding a line
    break and no span contributes the text before the break only, not
    all the text below it; and a document without body gets the empty
    string, marker or not. *)
Lemma ttml_to_lrc_untimed_direct_text :
  str_in timing_none break_doc = true
  /\ find_lines (elem (tt "div") [] None [break_line]) = [break_line]
  /\ descendant_text break_line = "ab"
  /\ ttml_to_lrc (parses_as break_doc break_tree) break_doc = Returns "[!text]a"
  /\ str_in timing_none marked_head_only_doc = true
  /\ ttml_to_lrc (parses_as marked_head_only_doc marked_head_only_tree) marked_head_only_doc
     = Returns EmptyString.
Proof. split_and!; vm_compute; reflexivity. Qed.

(** C5.  Every lookup of [ttml_to_lrc] tries the qualified name
    first and the bare name when that matched nothing: the body is the
    first qualified match, else the first bare match, and is missing
    only when both are; the groups, the lines and the spans are the
    qualified matches when there are some and the bare matches
    otherwise; and these are the elements both branches process. *)
Theorem lookup_fallback :
  (forall root,
     (forall b rest, findall_descendant (tt "body") root = b :: rest ->
                     find_body root = Some b)
     /\ (findall_descendant (tt "body") root = [] ->
         find_body root = head (findall_child "body" root)))
  /\ (forall body,
        (findall_descendant (tt "div") body <> [] ->
         find_divs body = findall_descendant (tt "div") body)
        /\ (findall_descendant (tt "div") body = [] ->
            find_divs body = findall_child "div" body))
  /\ (forall div,
        (findall_descendant (tt "p") div <> [] ->
         find_lines div = findall_descendant (tt "p") div)
        /\ (findall_descendant (tt "p") div = [] ->
            find_lines div = findall_child "p" div))
  /\ (forall line,
        (findall_descendant (tt "span") line <> [] ->
         find_spans line = findall_descendant (tt "span") line)
        /\ (findall_descendant (tt "span") line = [] ->
            find_spans line = findall_child "span" line))
  /\ (forall (fromstring : string -> option Element) ttml root body,
        ttml <> EmptyString -> fromstring ttml = Some root -> find_body root = Some body ->
        ttml_to_lrc fromstring ttml
        = if str_in timing_none ttml
          then Returns ("[!text]" +:+
                        join nl (flat_map
                                   (fun div =>
                                      List.filter (fun t => negb (String.eqb t EmptyString))
                                        (map line_text (find_lines div)))
                                   (find_divs body)))
          else render_lrc (flat_map div_items (find_divs body)) EmptyString)
  /\ (forall div,
        div_items div
        = match song_part div with
          | Some EmptyString | None => []
          | Some part => [Mark part]
          end ++ map line_item (find_lines div))
  /\ (forall line,
        line_text line
        = match find_spans line with
          | [] => match text line with Some t => strip t | None => EmptyString end
          | _ :: _ => descendant_text line
          end).
Proof.
  assert (Hor : forall (a b : list Element),
            (a <> [] -> or_list a b = a) /\ (a = [] -> or_list a b = b)).
  { intros a b. destruct a; split; intros H; try reflexivity;
      [now contradiction H | discriminate H]. }
  split_and!.
  - intros root. unfold find_body, find_descendant. split.
    + intros b rest ->. reflexivity.
    + intros ->. reflexivity.
  - intros body. apply Hor.
  - intros div. apply Hor.
  - intros line. apply Hor.
  - intros fromstring ttml root body Hne Hp Hb.
    exact (ttml_to_lrc_body fromstring ttml root body Hne Hp Hb).
  - reflexivity.
  - intros line. unfold line_text, descendant_text.
    destruct (find_spans line); [|reflexivity].
    destruct (text line) as [[|c t]|]; reflexivity.
Qed.

Lemma lookup_fallback_witness :
  findall_descendant (tt "div") plain_body = []
  /\ find_divs plain_body = findall_child "div" plain_body
  /\ find_body plain_tree = Some plain_body
  /\ ttml_to_lrc (parses_as plain_doc plain_tree) plain_doc = Returns ("[00:01.000]x" +:+ nl).
Proof.
  destruct lookup_fallback as (Hbody & Hdivs & _ & _ & Hrun & _).
  split_and!.
  - reflexivity.
  - apply (proj2 (Hdivs plain_body)). reflexivity.
  - rewrite (proj2 (Hbody plain_tree)) by reflexivity. reflexivity.
  - assert (plain_doc <> EmptyString) as H1 by discriminate.
    rewrite (Hrun (parses_as plain_doc plain_tree) plain_doc plain_tree plain_body
               H1 eq_refl eq_refl).
    vm_compute. reflexivity.
Defined.

(** C7.  In timed mode every discovered line has its entry in
    [lrc_body], one per line and in order, text or no text; the entry
    of a line without text below it carries the empty text and renders
    as [[normalized begin]] and a newline; and when the begins
    normalize the transcript holds that line for it. *)
Theorem timed_line_without_text_kept
    (fromstring : string -> option Element) ttml root body :
  ttml <> EmptyString -> fromstring ttml = Some root -> find_body root = Some body ->
  str_in timing_none ttml = false ->
  ttml_to_lrc fromstring ttml = render_lrc (build_lrc_body body) EmptyString
  /\ List.filter is_line (build_lrc_body body)
     = map line_item (flat_map find_lines (find_divs body))
  /\ (forall line,
        descendant_text line = EmptyString ->
        line_item line = Line (get line "begin") (get line "end") EmptyString
        /\ forall acc,
            render_lrc [line_item line] acc
            = (t <- to_standard_time (get line "begin") ;;
               Returns (acc +:+ "[" +:+ t +:+ "]" +:+ nl)))
  /\ (forall nb : Element -> string,
        (forall div line, In div (find_divs body) -> In line (find_lines div) ->
                          to_standard_time (get line "begin") = Returns (nb line)) ->
        ttml_to_lrc fromstring ttml
        = Returns (concat_str (map (timed_group nb) (find_divs body)))
        /\ forall div,
            timed_group nb div
            = marker_line div +:+
              concat_str (map (fun line => timed_line (nb line) line) (find_lines div))
        /\ forall line,
            descendant_text line = EmptyString ->
            timed_line (nb line) line = "[" +:+ nb line +:+ "]" +:+ nl).
Proof.
  intros Hne Hp Hb Ht. split_and!.
  - now rewrite (ttml_to_lrc_body fromstring ttml root body Hne Hp Hb), Ht.
  - apply filter_lines_body.
  - intros line Hs. apply line_text_silent in Hs. unfold line_item. rewrite Hs.
    split; [reflexivity|]. intros acc. cbn [render_lrc].
    destruct (to_standard_time (get line "begin")); reflexivity.
  - intros nb Hnb. split.
    + exact (ttml_to_lrc_timed fromstring ttml root body nb Hne Hp Hb Ht Hnb).
    + intros div. split; [reflexivity|].
      intros line Hs. apply line_text_silent in Hs. unfold timed_line. now rewrite Hs.
Qed.

Lemma timed_line_without_text_kept_witness :
  descendant_text silent_line = EmptyString
  /\ ttml_to_lrc (parses_as silent_doc silent_tree) silent_doc
     = Returns ("[00:07.000]" +:+ nl).
Proof.
  split; [reflexivity|].
  assert (silent_doc <> EmptyString) as H1 by discriminate.
  destruct (timed_line_without_text_kept
              (parses_as silent_doc silent_tree) silent_doc silent_tree
              (elem (tt "body") [] None [elem (tt "div") [] None [silent_line]])
              H1 eq_refl eq_refl eq_refl) as (Hrun & _).
  rewrite Hrun. vm_compute. reflexivity.
Defined.

(** C8, as amended.  A non-empty input that [fromstring] rejects
    makes [ttml_to_lrc] raise the parser's error, with no result; the
    empty input is answered with the empty string before any parsing. *)
Theorem ttml_to_lrc_unparsable (fromstring : string -> option Element) :
  (forall ttml, ttml <> EmptyString -> fromstring ttml = None ->
                ttml_to_lrc fromstring ttml = Raises ParseError
                /\ forall out, ttml_to_lrc fromstring ttml <> Returns out)
  /\ ttml_to_lrc fromstring EmptyString = Returns EmptyString.
Proof.
  split; [|reflexivity].
  intros ttml Hne Hp.
  assert (ttml_to_lrc fromstring ttml = Raises ParseError) as E.
  { unfold ttml_to_lrc. rewrite Hp. destruct ttml; [contradiction | reflexivity]. }
  split; [exact E|]. intros out. rewrite E. discriminate.
Qed.

Lemma ttml_to_lrc_unparsable_witness :
  ttml_to_lrc (parses_as verse_doc verse_tree) "<tt>" = Raises ParseError.
Proof.
  apply (proj1 (ttml_to_lrc_unparsable (parses_as verse_doc verse_tree)) "<tt>");
    [discriminate | reflexivity].
Defined.

(** C8 as stated fails on the empty string: no tree can be parsed
    from it, yet [ttml_to_lrc] returns the empty transcript. *)
Lemma ttml_to_lrc_empty_input :
  (fun _ : string => @None Element) EmptyString = None
  /\ ttml_to_lrc (fun _ => None) EmptyString = Returns EmptyString
  /\ ~ raises (ttml_to_lrc (fun _ => None) EmptyString).
Proof.
  split_and!; try reflexivity. intros [e H]. discriminate H.
Qed.

(** C10.  In timed mode a discovered line without begin makes
    [ttml_to_lrc] raise, [to_standard_time] rejecting [None]; so when a
    transcript is returned every discovered line carried a begin, one
    that [to_standard_time] normalizes. *)
Theorem ttml_to_lrc_missing_begin
    (fromstring : string -> option Element) ttml root body :
  ttml <> EmptyString -> fromstring ttml = Some root -> find_body root = Some body ->
  str_in timing_none ttml = false ->
  to_standard_time None = Raises TypeError
  /\ ((exists div line, In div (find_divs body) /\ In line (find_lines div)
                        /\ get line "begin" = None) ->
      raises (ttml_to_lrc fromstring ttml)
      /\ forall out, ttml_to_lrc fromstring ttml <> Returns out)
  /\ (forall out, ttml_to_lrc fromstring ttml = Returns out ->
      forall div line, In div (find_divs body) -> In line (find_lines div) ->
      exists b t, get line "begin" = Some b /\ to_standard_time (Some b) = Returns t).
Proof.
  intros Hne Hp Hb Ht.
  rewrite (ttml_to_lrc_body fromstring ttml root body Hne Hp Hb), Ht.
  split_and!.
  - reflexivity.
  - intros (div & line & Hd & Hl & Hbegin).
    pose proof (line_item_in_body body div line Hd Hl) as Hin.
    unfold line_item in Hin. rewrite Hbegin in Hin.
    destruct (render_lrc_no_begin _ _ _ EmptyString Hin) as [e He].
    split; [now exists e|]. intros out. rewrite He. discriminate.
  - intros out Hr div line Hd Hl.
    pose proof (line_item_in_body body div line Hd Hl) as Hin.
    destruct (render_lrc_returns_inv _ _ _ _ _ _ Hr Hin) as [t Ht'].
    destruct (get line "begin") as [b|]; [|discriminate Ht'].
    now exists b, t.
Qed.

Lemma ttml_to_lrc_missing_begin_witness :
  get no_begin_line "begin" = None
  /\ raises (ttml_to_lrc (parses_as no_begin_doc no_begin_tree) no_begin_doc).
Proof.
  split; [reflexivity|].
  assert (no_begin_doc <> EmptyString) as H1 by discriminate.
  destruct (ttml_to_lrc_missing_begin
              (parses_as no_begin_doc no_begin_tree) no_begin_doc no_begin_tree
              (elem (tt "body") [] None [elem (tt "div") [] None [no_begin_line]])
              H1 eq_refl eq_refl eq_refl) as (_ & Hraise & _).
  apply Hraise.
  exists (elem (tt "div") [] None [no_begin_line]), no_begin_line.
  split_and!; [left; reflexivity | left; reflexivity | reflexivity].
Defined.

(** * Further properties of the normalizer *)

Section MoreTimeFacts.

Implicit Types (s f : string).

Lemma to_standard_time_unfold s :
  to_standard_time (Some s) = (r <- time_fields (fields s) ;; carry_and_format r).
Proof. reflexivity. Qed.

Lemma filter_chars_append p s1 s2 :
  filter_chars p (s1 +:+ s2) = filter_chars p s1 +:+ filter_chars p s2.
Proof.
  induction s1 as [|c s1 IH]; simpl; [reflexivity|].
  destruct (p c); simpl; now rewrite IH.
Qed.

Lemma seconds_field_returns_ok f r :
  seconds_field f = Returns r -> seconds_ok f = true.
Proof.
  unfold seconds_field. fold (whole_part f).
  destruct (int_ _) as [n|e] eqn:E; cbn [bind]; [|discriminate].
  intros _. apply seconds_ok_spec. split.
  - now apply int_inv in E as (Hne & _).
  - now apply int_inv_limit in E.
Qed.

Lemma int_returns_number s n : int_ s = Returns n -> number s = true.
Proof.
  intros E. pose proof (int_inv_limit _ _ E) as Hl.
  apply int_inv in E as (Hne & Hd & _). now apply number_spec.
Qed.

Lemma time_fields_returns_valid times r :
  time_fields times = Returns r -> valid_fields times = true.
Proof.
  destruct times as [|t0 [|t1 [|t2 [|t3 l]]]]; cbn [time_fields valid_fields]; try discriminate.
  - destruct (seconds_field t0) eqn:E; cbn [bind]; [|discriminate]. intros _.
    now apply seconds_field_returns_ok in E.
  - destruct (int_ t0) eqn:E0; cbn [bind]; [|discriminate].
    destruct (seconds_field t1) eqn:E; cbn [bind]; [|discriminate]. intros _.
    apply seconds_field_returns_ok in E. apply int_returns_number in E0.
    now rewrite E0, E.
  - destruct (int_ t0) eqn:E0; cbn [bind]; [|discriminate].
    destruct (int_ t1) eqn:E1; cbn [bind]; [|discriminate].
    destruct (seconds_field t2) eqn:E; cbn [bind]; [|discriminate]. intros _.
    apply seconds_field_returns_ok in E.
    apply int_returns_number in E0. apply int_returns_number in E1.
    now rewrite E0, E1, E.
Qed.

Lemma time_fields_raises times e :
  time_fields times = Raises e ->
  ((1 <= List.length times <= 3)%nat /\ e = ValueError)
  \/ (~ (1 <= List.length times <= 3)%nat /\ e = UnboundLocalError).
Proof.
  destruct times as [|t0 [|t1 [|t2 [|t3 l]]]]; cbn [time_fields List.length].
  - intros [= <-]. right. split; [lia | reflexivity].
  - destruct (seconds_field t0) eqn:E; cbn [bind]; [discriminate|].
    intros [= <-]. left. split; [lia | eauto using seconds_field_raises].
  - intros H. left. split; [lia|].
    destruct (int_ t0) eqn:E0; cbn [bind] in H;
      [|injection H as <-; eauto using int_raises_value_error].
    destruct (seconds_field t1) eqn:E; cbn [bind] in H; [discriminate|].
    injection H as <-. eauto using seconds_field_raises.
  - intros H. left. split; [lia|].
    destruct (int_ t0) eqn:E0; cbn [bind] in H;
      [|injection H as <-; eauto using int_raises_value_error].
    destruct (int_ t1) eqn:E1; cbn [bind] in H;
      [|injection H as <-; eauto using int_raises_value_error].
    destruct (seconds_field t2) eqn:E; cbn [bind] in H; [discriminate|].
    injection H as <-. eauto using seconds_field_raises.
  - intros [= <-]. right. split; [simpl; lia | reflexivity].
Qed.

Lemma time_fields_returns_length times r :
  time_fields times = Returns r -> (1 <= List.length times <= 3)%nat.
Proof.
  destruct times as [|t0 [|t1 [|t2 [|t3 l]]]]; cbn [time_fields List.length];
    try discriminate; lia.
Qed.

(** The exception of [to_standard_time] on a string tells the number
    of fields: [ValueError] with one to three (a field [int()] rejects,
    or minutes [format] rejects), [UnboundLocalError] with more. *)
Lemma to_standard_time_raises_kind s e :
  to_standard_time (Some s) = Raises e ->
  ((1 <= List.length (fields s) <= 3)%nat /\ e = ValueError)
  \/ (~ (1 <= List.length (fields s) <= 3)%nat /\ e = UnboundLocalError).
Proof.
  intros H. apply to_standard_time_raises in H as [H | [-> [r H]]].
  - now apply time_fields_raises.
  - left. split; [now apply time_fields_returns_length in H | reflexivity].
Qed.

(** A returned value comes from a valid input. *)
Lemma to_standard_time_returns_valid s y :
  to_standard_time (Some s) = Returns y -> valid_time s = true.
Proof.
  intros Hy. unfold valid_time, total_minutes.
  destruct (time_fields (fields s)) as [r|e] eqn:E;
    [|rewrite to_standard_time_unfold, E in Hy; discriminate].
  pose proof (time_fields_returns_valid _ _ E) as Hv. rewrite Hv. cbn [andb].
  pose proof (time_fields_valid _ (fields_chars s) Hv) as E'.
  destruct (read_fields (fields s)) as [[h m] f].
  rewrite (to_standard_time_of_fields _ _ _ _ _ E') in Hy.
  destruct (fits_digit_limit _); [reflexivity | discriminate].
Qed.

(** The two parts of the seconds field of a rendered time. *)
Lemma canonical_seconds_parts sec ms :
  0 <= sec -> 0 <= ms < 1000 ->
  whole_part (pad_d 2 sec +:+ "." +:+ pad_d 3 ms) = pad_d 2 sec
  /\ frac_part (pad_d 2 sec +:+ "." +:+ pad_d 3 ms) = pad_d 3 ms
  /\ frac_millis (pad_d 3 ms) = ms.
Proof.
  intros Hs Hms.
  destruct (pad_d_spec 2 sec Hs) as (_ & Ds & _).
  destruct (pad_d_spec 3 ms (proj1 Hms)) as (_ & Dms & Vms & _).
  assert (Hno : forall x, all_chars is_digit x = true -> all_chars (is_not ".") x = true).
  { intros x. apply all_chars_weaken. intros c Hc. now apply is_digit_no_sep. }
  assert (Hdot : split "." (pad_d 2 sec +:+ "." +:+ pad_d 3 ms) = [pad_d 2 sec; pad_d 3 ms]).
  { change ("." +:+ ?x) with (String "." x).
    rewrite split_append_sep by auto. f_equal. apply split_no_sep. auto. }
  unfold whole_part, frac_part. rewrite Hdot. split_and!; try reflexivity.
  unfold frac_millis. rewrite (pad_d_length 3 ms) by (simpl; lia).
  rewrite take_str_id by (rewrite (pad_d_length 3 ms); simpl; lia).
  exact Vms.
Qed.

Lemma total_millis_canonical m sec ms :
  0 <= m -> 0 <= sec -> 0 <= ms < 1000 ->
  total_millis (canonical m sec ms) = (m * 60 + sec) * 1000 + ms.
Proof.
  intros Hm Hs Hms. unfold total_millis.
  rewrite canonical_fields by lia. cbn [read_fields].
  destruct (canonical_seconds_parts sec ms Hs Hms) as (-> & -> & ->).
  destruct (pad_d_spec 2 m Hm) as (_ & _ & Vm & _).
  destruct (pad_d_spec 2 sec Hs) as (_ & _ & Vs & _).
  unfold decimal. rewrite Vm, Vs. lia.
Qed.

(** The limit at work: a run of 4300 zeros is read, one of 4301 is
    refused. *)
Lemma to_standard_time_digit_limit :
  to_standard_time (Some (zeros 4300)) = Returns "00:00.000"
  /\ valid_time (zeros 4301) = false
  /\ to_standard_time (Some (zeros 4301)) = Raises ValueError.
Proof. split_and!; vm_compute; reflexivity. Qed.

End MoreTimeFacts.

(** X1.  The outcome of [to_standard_time] on a string is decided by
    its fields: it returns exactly on the valid inputs (fields that
    [int()] reads, minutes that [format] writes), raises [ValueError]
    exactly on the other inputs of one to three fields, and raises
    [UnboundLocalError] exactly when there are more than three
    fields. *)
Theorem to_standard_time_outcome (s : string) :
  (valid_time s = true <-> exists y, to_standard_time (Some s) = Returns y)
  /\ ((1 <= List.length (fields s) <= 3)%nat /\ valid_time s = false
      <-> to_standard_time (Some s) = Raises ValueError)
  /\ ((3 < List.length (fields s))%nat
      <-> to_standard_time (Some s) = Raises UnboundLocalError).
Proof.
  assert (Hlen : (1 <= List.length (fields s))%nat).
  { unfold fields. pose proof (split_nonempty ":" (filter_chars keep_time_char s)).
    destruct (split _ _); [contradiction | simpl; lia]. }
  assert (Hv : valid_time s = true -> exists y, to_standard_time (Some s) = Returns y).
  { intros H. pose proof (to_standard_time_valid s H) as E.
    destruct (read_fields (fields s)) as [[h m] f]. eauto. }
  pose proof (to_standard_time_returns_valid s) as Hr.
  split_and!.
  - split; [exact Hv | intros [y Hy]; eauto].
  - split.
    + intros [Hl Hnv]. destruct (to_standard_time (Some s)) as [y|e] eqn:E.
      * rewrite (Hr y eq_refl) in Hnv. discriminate.
      * f_equal.
        apply to_standard_time_raises_kind in E as [[_ ->] | [Hn _]];
          [reflexivity | contradiction].
    + intros E. split.
      * apply to_standard_time_raises_kind in E as [[Hl _] | [_ He]];
          [exact Hl | discriminate].
      * destruct (valid_time s) eqn:Hvs; [|reflexivity].
        destruct (Hv eq_refl) as [y Hy]. rewrite Hy in E. discriminate.
  - split.
    + intros Hl. rewrite to_standard_time_unfold.
      destruct (fields s) as [|t0 [|t1 [|t2 [|t3 l]]]]; simpl in Hl; try lia. reflexivity.
    + intros E.
      apply to_standard_time_raises_kind in E as [[_ He] | [Hn _]]; [discriminate | lia].
Qed.

Lemma to_standard_time_outcome_witness :
  to_standard_time (Some "12:xx") = Raises ValueError
  /\ to_standard_time (Some (zeros 4301)) = Raises ValueError
  /\ exists y, to_standard_time (Some "7") = Returns y.
Proof.
  split_and!.
  - apply (proj1 (proj2 (to_standard_time_outcome "12:xx"))).
    split; [vm_compute; lia | reflexivity].
  - apply (proj1 (proj2 (to_standard_time_outcome (zeros 4301)))).
    split; [vm_compute; lia | vm_compute; reflexivity].
  - apply (proj1 (to_standard_time_outcome "7")). reflexivity.
Defined.

(** X2.  Normalizing keeps the instant: whenever [to_standard_time]
    returns, the result denotes as many milliseconds as the input,
    hours, minutes, seconds and the truncated fraction counted. *)
Theorem to_standard_time_keeps_instant (s y : string) :
  to_standard_time (Some s) = Returns y ->
  total_millis y = total_millis s.
Proof.
  intros Hy.
  pose proof (to_standard_time_returns_valid s y Hy) as Hvt.
  pose proof (to_standard_time_valid s Hvt) as Hret.
  unfold valid_time in Hvt. apply andb_true_iff in Hvt as [Hv _].
  pose proof (time_fields_valid _ (fields_chars s) Hv) as E.
  unfold total_millis at 2.
  destruct (read_fields (fields s)) as [[h m] f].
  pose proof (time_fields_inv _ _ _ _ _ E) as (Hh & Hm & Hs & Hms).
  rewrite Hret in Hy. injection Hy as <-.
  pose proof (Z.mod_pos_bound (decimal (whole_part f)) 60 ltac:(lia)) as Hmod.
  pose proof (Z.div_pos (decimal (whole_part f)) 60 Hs ltac:(lia)) as Hdiv.
  rewrite total_millis_canonical by lia.
  pose proof (Z.div_mod (decimal (whole_part f)) 60 ltac:(lia)). lia.
Qed.

Lemma to_standard_time_keeps_instant_witness :
  total_millis "01:15.000" = total_millis "00:75.000"
  /\ total_millis "00:75.000" = 75000.
Proof.
  split; [|reflexivity].
  apply (to_standard_time_keeps_instant "00:75.000" "01:15.000"). reflexivity.
Defined.

(** X3.  The readings agree: an input [HH:MM:SS] normalizes like
    [M:SS] with [M = HH*60 + MM], and a lone [SS] like [0:SS], the
    hours and minutes fields being numbers that [int()] reads; when
    the seconds field is rejected, or the minutes cannot be written,
    that happens in both. *)
Theorem to_standard_time_folds_hours :
  (forall s3 s2 h m hm f,
     fields s3 = [h; m; f] -> fields s2 = [hm; f] ->
     number h = true -> number m = true -> number hm = true ->
     decimal hm = decimal h * 60 + decimal m ->
     to_standard_time (Some s3) = to_standard_time (Some s2))
  /\ (forall s1 s2 z f,
        fields s1 = [f] -> fields s2 = [z; f] ->
        number z = true -> decimal z = 0 ->
        to_standard_time (Some s1) = to_standard_time (Some s2)).
Proof.
  split.
  - intros s3 s2 h m hm f E3 E2 Hh Hm Hhm Hval.
    rewrite !to_standard_time_unfold, E3, E2. cbn [time_fields].
    rewrite (number_int h Hh), (number_int m Hm), (number_int hm Hhm). cbn [bind].
    destruct (seconds_field f) as [[sec ms]|e]; cbn [bind fst snd carry_and_format];
      [|reflexivity].
    rewrite Hval. replace (decimal h * 60 + decimal m + 0 * 60)
      with (decimal m + decimal h * 60) by lia. reflexivity.
  - intros s1 s2 z f E1 E2 Hz Hval.
    rewrite !to_standard_time_unfold, E1, E2. cbn [time_fields].
    rewrite (number_int z Hz). cbn [bind].
    destruct (seconds_field f) as [[sec ms]|e]; cbn [bind fst snd carry_and_format];
      [|reflexivity].
    rewrite Hval. reflexivity.
Qed.

Lemma to_standard_time_folds_hours_witness :
  to_standard_time (Some "2:05:09.5") = to_standard_time (Some "125:09.5")
  /\ to_standard_time (Some "9.5") = to_standard_time (Some "0:9.5").
Proof.
  destruct to_standard_time_folds_hours as [H3 H1]. split.
  - apply (H3 "2:05:09.5" "125:09.5" "2" "05" "125" "09.5"); reflexivity.
  - apply (H1 "9.5" "0:9.5" "0" "9.5"); reflexivity.
Defined.

(** X4.  Characters other than digits, dots and colons do not count:
    dropping one anywhere in the input leaves the outcome of
    [to_standard_time] unchanged (a sign, a space or a letter is
    ignored). *)
Theorem to_standard_time_ignores_other_chars (a b : string) (c : ascii) :
  keep_time_char c = false ->
  to_standard_time (Some (a +:+ String c b)) = to_standard_time (Some (a +:+ b)).
Proof.
  intros Hc. rewrite !to_standard_time_unfold. unfold fields.
  rewrite !filter_chars_append. cbn [filter_chars]. now rewrite Hc.
Qed.

Lemma to_standard_time_ignores_other_chars_witness :
  to_standard_time (Some "-1:30") = to_standard_time (Some "1:30")
  /\ to_standard_time (Some "1:30") = Returns "01:30.000".
Proof.
  split; [|reflexivity].
  apply (to_standard_time_ignores_other_chars "" "1:30" "-"). reflexivity.
Defined.

(** * Further properties of the transcoder *)

Section MoreStripFacts.

Implicit Types (s : string) (c : ascii).

Lemma rstrip_cons c s :
  rstrip (String c s)
  = match rstrip s with
    | EmptyString => if is_space c then EmptyString else String c EmptyString
    | r' => String c r'
    end.
Proof. reflexivity. Qed.

Lemma rstrip_idem s : rstrip (rstrip s) = rstrip s.
Proof.
  induction s as [|c s IH]; [reflexivity|]. rewrite rstrip_cons.
  destruct (rstrip s) as [|c' r] eqn:E.
  - destruct (is_space c) eqn:Ec; [reflexivity|]. cbn [rstrip]. now rewrite Ec.
  - rewrite rstrip_cons, IH. reflexivity.
Qed.

Lemma rstrip_head c s : is_space c = false -> exists r, rstrip (String c s) = String c r.
Proof.
  intros Hc. cbn [rstrip]. destruct (rstrip s); [rewrite Hc|]; eexists; reflexivity.
Qed.

Lemma lstrip_head s :
  lstrip s = EmptyString \/ exists c r, lstrip s = String c r /\ is_space c = false.
Proof.
  induction s as [|c s IH]; [now left|]. cbn [lstrip].
  destruct (is_space c) eqn:Ec; [exact IH|]. right. now exists c, s.
Qed.

Lemma strip_idem s : strip (strip s) = strip s.
Proof.
  unfold strip. destruct (lstrip_head s) as [-> | (c & r & -> & Hc)]; [reflexivity|].
  destruct (rstrip_head c r Hc) as [r' E]. rewrite E.
  cbn [lstrip]. rewrite Hc, <- E. apply rstrip_idem.
Qed.

Lemma line_text_stripped (line : Element) : strip (line_text line) = line_text line.
Proof.
  unfold line_text. destruct (find_spans line); [|apply strip_idem].
  destruct (text line) as [[|c t]|]; try reflexivity. apply strip_idem.
Qed.

End MoreStripFacts.

Section MoreRenderFacts.

Implicit Types (items : list lrc_item) (acc out : string).

Lemma render_lrc_length items acc out :
  render_lrc items acc = Returns out ->
  (String.length acc + List.length items <= String.length out)%nat.
Proof.
  revert acc. induction items as [|[part | b e t] r IH]; intros acc; cbn [render_lrc List.length].
  - intros [= <-]. lia.
  - intros H. apply IH in H. rewrite !length_append in H. simpl in H. lia.
  - destruct (to_standard_time b) as [ts|err]; cbn [bind]; [|discriminate].
    intros H. apply IH in H. rewrite !length_append in H. simpl in H. lia.
Qed.

Lemma render_lrc_raises_inv items acc err :
  render_lrc items acc = Raises err ->
  exists b e t, In (Line b e t) items /\ to_standard_time b = Raises err.
Proof.
  revert acc. induction items as [|[part | b e t] r IH]; intros acc; cbn [render_lrc].
  - discriminate.
  - intros H. destruct (IH _ H) as (b' & e' & t' & Hin & Hb). exists b', e', t'.
    split; [now right | assumption].
  - destruct (to_standard_time b) as [ts|err'] eqn:E; cbn [bind].
    + intros H. destruct (IH _ H) as (b' & e' & t' & Hin & Hb). exists b', e', t'.
      split; [now right | assumption].
    + intros [= <-]. exists b, e, t. split; [now left | assumption].
Qed.

Lemma render_lrc_all_ok items acc :
  (forall b e t, In (Line b e t) items -> exists ts, to_standard_time b = Returns ts) ->
  exists out, render_lrc items acc = Returns out.
Proof.
  revert acc. induction items as [|[part | b e t] r IH]; intros acc H; cbn [render_lrc].
  - now exists acc.
  - apply IH. intros b e t Hin. apply (H b e t). now right.
  - destruct (H b e t) as [ts ->]; [now left|]. cbn [bind].
    apply IH. intros b' e' t' Hin. apply (H b' e' t'). now right.
Qed.

Lemma line_in_body_inv (body : Element) b e t :
  In (Line b e t) (build_lrc_body body) ->
  exists div line, In div (find_divs body) /\ In line (find_lines div)
                   /\ b = get line "begin".
Proof.
  unfold build_lrc_body. intros H. apply in_flat_map in H as (div & Hd & Hi).
  unfold div_items in Hi. apply in_app_or in Hi as [Hm | Hl].
  - destruct (song_part div) as [[|c l]|]; simpl in Hm; try contradiction.
    destruct Hm as [Hm | []]. discriminate Hm.
  - apply in_map_iff in Hl as (line & Hl & Hin). exists div, line.
    injection Hl as <- _ _. auto.
Qed.

Lemma div_items_empty (div : Element) :
  div_items div = [] <-> marker_line div = EmptyString /\ find_lines div = [].
Proof.
  unfold div_items, marker_line.
  destruct (song_part div) as [[|c l]|]; cbn [app].
  - destruct (find_lines div); simpl; split; try tauto; try discriminate.
    intros [_ H]. discriminate H.
  - split; [discriminate | intros [H _]; discriminate H].
  - destruct (find_lines div); simpl; split; try tauto; try discriminate.
    intros [_ H]. discriminate H.
Qed.

End MoreRenderFacts.

Section MoreTreeFacts.

Lemma Element_induction (P : Element -> Prop) :
  (forall e, Forall P (children e) -> P e) -> forall e, P e.
Proof.
  intros H. fix IH 1. intros [tg at_ tx tl cs]. apply H. cbn [children].
  revert cs. fix IHcs 1. intros [|c cs]; constructor; [apply IH | apply IHcs].
Qed.

Lemma descendants_unfold (e : Element) :
  descendants e = flat_map (fun c => c :: descendants c) (children e).
Proof.
  destruct e as [tg at_ tx tl cs]. cbn [children]. simpl.
  induction cs as [|c cs IH]; [reflexivity|]. cbn [flat_map app]. now rewrite <- IH.
Qed.

(** What is below a descendant is below the element. *)
Lemma descendants_trans (x y z : Element) :
  In x (descendants y) -> In y (descendants z) -> In x (descendants z).
Proof.
  intros Hxy. revert z. apply (Element_induction (fun z => In y (descendants z) -> In x (descendants z))).
  intros z IH. rewrite !(descendants_unfold z). rewrite List.Forall_forall in IH.
  intros H. apply in_flat_map in H as (c & Hc & Hy). apply in_flat_map. exists c.
  split; [assumption|]. destruct Hy as [-> | Hy]; [now right|]. right. now apply IH.
Qed.

Lemma findall_descendant_in (name : string) (x e : Element) :
  In x (findall_descendant name e) <-> In x (descendants e) /\ tag x = name.
Proof.
  unfold findall_descendant. rewrite List.filter_In. unfold has_tag.
  now rewrite String.eqb_eq.
Qed.

Lemma or_list_first {A : Type} (a b : list A) (x : A) : In x a -> or_list a b = a.
Proof. destruct a; [intros [] | reflexivity]. Qed.

End MoreTreeFacts.

(** X5.  In untimed mode [ttml_to_lrc] always returns, whatever the
    begin attributes: [[!text]] followed by the texts of the discovered
    lines that are not empty, in order and joined by newlines; each of
    these texts has no white space at either end. *)
Theorem untimed_lines_trimmed (fromstring : string -> option Element) ttml root body :
  ttml <> EmptyString -> fromstring ttml = Some root -> find_body root = Some body ->
  str_in timing_none ttml = true ->
  let lines :=
    List.filter (fun t => negb (String.eqb t EmptyString))
      (map line_text (flat_map find_lines (find_divs body))) in
  ttml_to_lrc fromstring ttml = Returns ("[!text]" +:+ join nl lines)
  /\ Forall (fun t => t <> EmptyString /\ strip t = t) lines.
Proof.
  intros Hne Hp Hb Ht. cbv zeta. rewrite <- untimed_text_lines_flat. split.
  - now rewrite (ttml_to_lrc_body fromstring ttml root body Hne Hp Hb), Ht.
  - rewrite untimed_text_lines_flat. apply List.Forall_forall. intros t Hin.
    apply List.filter_In in Hin as [Hin Hf].
    apply negb_true_iff, String.eqb_neq in Hf. split; [assumption|].
    apply in_map_iff in Hin as (line & <- & _). apply line_text_stripped.
Qed.

Lemma untimed_lines_trimmed_witness :
  ttml_to_lrc (parses_as break_doc break_tree) break_doc = Returns "[!text]a"
  /\ Forall (fun t => t <> EmptyString /\ strip t = t) ["a"].
Proof.
  assert (break_doc <> EmptyString) as H1 by discriminate.
  exact (untimed_lines_trimmed (parses_as break_doc break_tree) break_doc break_tree
           (elem (tt "body") [] None [elem (tt "div") [] None [break_line]])
           H1 eq_refl eq_refl eq_refl).
Defined.

(** X6.  In timed mode the transcript is the empty string exactly
    when nothing was discovered: no group with a label and no line in
    any group (in particular for a body without groups). *)
Theorem timed_transcript_empty (fromstring : string -> option Element) ttml root body :
  ttml <> EmptyString -> fromstring ttml = Some root -> find_body root = Some body ->
  str_in timing_none ttml = false ->
  (ttml_to_lrc fromstring ttml = Returns EmptyString
   <-> forall div, In div (find_divs body) ->
                   marker_line div = EmptyString /\ find_lines div = [])
  /\ (find_divs body = [] -> ttml_to_lrc fromstring ttml = Returns EmptyString).
Proof.
  intros Hne Hp Hb Ht.
  rewrite (ttml_to_lrc_body fromstring ttml root body Hne Hp Hb), Ht.
  assert (Hall : build_lrc_body body = []
                 <-> forall div, In div (find_divs body) ->
                                 marker_line div = EmptyString /\ find_lines div = []).
  { unfold build_lrc_body. induction (find_divs body) as [|d r IH]; cbn [flat_map].
    - split; [intros _ div [] | reflexivity].
    - split.
      + intros H. apply app_eq_nil in H as [Hd Hr]. intros div [<- | Hin].
        * now apply div_items_empty.
        * now apply IH.
      + intros H. rewrite (proj2 (div_items_empty d)) by (apply H; now left).
        apply IH. intros div Hin. apply H. now right. }
  split.
  - rewrite <- Hall. split.
    + intros H. apply render_lrc_length in H. simpl in H.
      destruct (build_lrc_body body); [reflexivity | simpl in H; lia].
    + intros ->. reflexivity.
  - intros Hd. unfold build_lrc_body. rewrite Hd. reflexivity.
Qed.

Lemma timed_transcript_empty_witness :
  ttml_to_lrc (parses_as "<tt><body/></tt>" (elem "tt" [] None [elem "body" [] None []]))
    "<tt><body/></tt>"
  = Returns EmptyString.
Proof.
  apply (timed_transcript_empty
           (parses_as "<tt><body/></tt>" (elem "tt" [] None [elem "body" [] None []]))
           "<tt><body/></tt>" (elem "tt" [] None [elem "body" [] None []])
           (elem "body" [] None []));
    try reflexivity. discriminate.
Defined.

(** X7.  What [ttml_to_lrc] can raise: the parser's error, on a
    non-empty input the parser rejects; or, in timed mode, the error
    of [to_standard_time] on the begin of a discovered line, which is
    [TypeError] when the line has no begin and [ValueError] or
    [UnboundLocalError] when it has one. *)
Theorem ttml_to_lrc_errors (fromstring : string -> option Element) ttml e :
  ttml_to_lrc fromstring ttml = Raises e ->
  (e = ParseError /\ ttml <> EmptyString /\ fromstring ttml = None)
  \/ (exists root body div line,
        fromstring ttml = Some root /\ find_body root = Some body
        /\ str_in timing_none ttml = false
        /\ In div (find_divs body) /\ In line (find_lines div)
        /\ to_standard_time (get line "begin") = Raises e
        /\ ((get line "begin" = None /\ e = TypeError)
            \/ (get line "begin" <> None /\ (e = ValueError \/ e = UnboundLocalError)))).
Proof.
  unfold ttml_to_lrc. destruct ttml as [|c0 r0]; [discriminate|].
  destruct (fromstring (String c0 r0)) as [root|] eqn:Hp.
  - destruct (find_body root) as [body|] eqn:Hb; [|discriminate].
    destruct (str_in timing_none (String c0 r0)) eqn:Ht; [discriminate|].
    intros H. right. apply render_lrc_raises_inv in H as (b & en & t & Hin & Hraise).
    apply line_in_body_inv in Hin as (div & line & Hd & Hl & ->).
    exists root, body, div, line. split_and!; try assumption; try reflexivity.
    destruct (get line "begin") as [bs|] eqn:Hbegin.
    + right. split; [discriminate|].
      apply to_standard_time_raises_kind in Hraise as [[_ ->] | [_ ->]];
        [now left | now right].
    + left. split; [reflexivity|]. now injection Hraise as <-.
  - intros [= <-]. left. split_and!; [reflexivity | discriminate | reflexivity].
Qed.

Lemma ttml_to_lrc_errors_witness :
  ttml_to_lrc (parses_as no_begin_doc no_begin_tree) no_begin_doc = Raises TypeError
  /\ exists line, get line "begin" = None
                  /\ to_standard_time (get line "begin") = Raises TypeError.
Proof.
  split; [reflexivity|].
  destruct (ttml_to_lrc_errors (parses_as no_begin_doc no_begin_tree) no_begin_doc
              TypeError eq_refl)
    as [(H & _) | (root & body & div & line & _ & _ & _ & _ & _ & Hr & [[Hn _] | [_ [H | H]]])];
    try discriminate H.
  exists line. rewrite Hn in *. split; [reflexivity | exact Hr].
Defined.

(** X8.  In timed mode the lines are normalized in order and the first
    begin that [to_standard_time] rejects ends the call with its
    error, whatever follows. *)
Theorem ttml_to_lrc_first_failure
    (fromstring : string -> option Element) ttml root body
    (before after : list lrc_item) (b en : option string) (t : string) (err : exn) :
  ttml <> EmptyString -> fromstring ttml = Some root -> find_body root = Some body ->
  str_in timing_none ttml = false ->
  build_lrc_body body = before ++ Line b en t :: after ->
  (forall b' e' t', In (Line b' e' t') before ->
                    exists ts, to_standard_time b' = Returns ts) ->
  to_standard_time b = Raises err ->
  ttml_to_lrc fromstring ttml = Raises err.
Proof.
  intros Hne Hp Hb Ht Hsplit Hok Hraise.
  rewrite (ttml_to_lrc_body fromstring ttml root body Hne Hp Hb), Ht, Hsplit.
  rewrite render_lrc_app.
  destruct (render_lrc_all_ok before EmptyString Hok) as [out ->]. cbn [bind render_lrc].
  now rewrite Hraise.
Qed.

Lemma ttml_to_lrc_first_failure_witness :
  ttml_to_lrc (parses_as two_bad_lines_doc two_bad_lines_tree) two_bad_lines_doc
  = Raises UnboundLocalError.
Proof.
  assert (two_bad_lines_doc <> EmptyString) as H1 by discriminate.
  apply (ttml_to_lrc_first_failure
           (parses_as two_bad_lines_doc two_bad_lines_tree) two_bad_lines_doc
           two_bad_lines_tree two_bad_lines_body
           [] [Line None None "b"] (Some "1:2:3:4") None "a" UnboundLocalError
           H1 eq_refl eq_refl eq_refl eq_refl).
  - intros b' e' t' [].
  - reflexivity.
Defined.

(** X9.  Groups are looked up at any depth, and so are the lines of a
    group: a line inside a group nested in another is a discovered
    line of the inner group and of the outer one, and is rendered once
    for each. *)
Theorem nested_group_line_repeated (body outer inner line : Element) :
  In outer (findall_descendant (tt "div") body) ->
  In inner (findall_descendant (tt "div") outer) ->
  In line (findall_descendant (tt "p") inner) ->
  In outer (find_divs body) /\ In inner (find_divs body)
  /\ In line (find_lines outer) /\ In line (find_lines inner)
  /\ In (line_item line) (div_items outer) /\ In (line_item line) (div_items inner).
Proof.
  intros Ho Hi Hl.
  pose proof Ho as Ho'. pose proof Hi as Hi'. pose proof Hl as Hl'.
  apply findall_descendant_in in Ho' as [Hod Hot].
  apply findall_descendant_in in Hi' as [Hid Hit].
  apply findall_descendant_in in Hl' as [Hld Hlt].
  assert (In inner (findall_descendant (tt "div") body)) as Hib.
  { apply findall_descendant_in. split; [|assumption]. eapply descendants_trans; eassumption. }
  assert (In line (findall_descendant (tt "p") outer)) as Hlo.
  { apply findall_descendant_in. split; [|assumption]. eapply descendants_trans; eassumption. }
  assert (In line (find_lines outer)) as H1.
  { unfold find_lines. now rewrite (or_list_first _ _ _ Hlo). }
  assert (In line (find_lines inner)) as H2.
  { unfold find_lines. now rewrite (or_list_first _ _ _ Hl). }
  split_and!; try assumption.
  - unfold find_divs. now rewrite (or_list_first _ _ _ Ho).
  - unfold find_divs. now rewrite (or_list_first _ _ _ Hib).
  - unfold div_items. apply in_or_app. right. now apply in_map.
  - unfold div_items. apply in_or_app. right. now apply in_map.
Qed.

Lemma nested_group_line_repeated_witness :
  In nested_line (find_lines nested_outer) /\ In nested_line (find_lines nested_inner)
  /\ ttml_to_lrc (parses_as nested_doc nested_tree) nested_doc
     = Returns ("[00:01.000]x" +:+ nl +:+ "[00:01.000]x" +:+ nl).
Proof.
  destruct (nested_group_line_repeated nested_body nested_outer nested_inner nested_line)
    as (_ & _ & H1 & H2 & _).
  - left. reflexivity.
  - left. reflexivity.
  - left. reflexivity.
  - split_and!; [exact H1 | exact H2 | reflexivity].
Defined.

(** * The record parsers *)

Section CatalogFacts.

Context {F : Type}.
Variable float_is_zero : F -> bool.
Variable int_truediv_1000 : Z -> option F.
Variable float_truediv_1000 : F -> F.
Variable str_format : string -> json F -> json F -> option string.
Variable now : F.
Variable fromstring : string -> option Element.

Local Abbreviation truthy' := (truthy F float_is_zero).
Local Abbreviation truthy_ids' := (truthy_ids F float_is_zero).
Local Abbreviation related_ids' := (related_ids F float_is_zero).
Local Abbreviation cover_of' := (cover_of F float_is_zero str_format).
Local Abbreviation song_ttml' := (song_ttml F float_is_zero).
Local Abbreviation ttml_to_lrc_value' := (ttml_to_lrc_value F float_is_zero fromstring).
Local Abbreviation truediv_1000' := (truediv_1000 F int_truediv_1000 float_truediv_1000).
Local Abbreviation song_record' :=
  (song_record F float_is_zero int_truediv_1000 float_truediv_1000 str_format now fromstring).
Local Abbreviation data_parser_song' :=
  (data_parser_song F float_is_zero int_truediv_1000 float_truediv_1000 str_format now
     fromstring).
Local Abbreviation data_parser_album' := (data_parser_album F float_is_zero str_format now).
Local Abbreviation data_parser_artist' := (data_parser_artist F float_is_zero str_format now).

Implicit Types (data v : json F) (d o : gmap string (json F)).

Lemma dict_get_member v key dflt :
  dict_get F v key dflt = if is_dict F v then Some (member v key dflt) else None.
Proof. destruct v; reflexivity. Qed.

Lemma dict_get_dict o key dflt :
  dict_get F (JObj o) key dflt = Some (default dflt (o !! key)).
Proof. reflexivity. Qed.

Lemma is_dict_inv v : is_dict F v = true -> exists o, v = JObj o.
Proof. destruct v; try discriminate. intros _. now eexists. Qed.

Lemma cover_of_dict o :
  exists cover, cover_of' (JObj o) = Some (default (JStr EmptyString) (o !! "url"), cover).
Proof. unfold cover_of. rewrite !dict_get_dict. eexists. reflexivity. Qed.

Lemma truthy_ids_dicts (items : list (json F)) :
  forallb (is_dict F) items = true ->
  truthy_ids' items
  = Some (List.filter truthy' (map (fun item => member item "id" JNull) items)).
Proof.
  induction items as [|ar rest IH]; [reflexivity|].
  cbn [forallb]. rewrite andb_true_iff. intros [Ha Hr].
  cbn [truthy_ids map List.filter]. rewrite dict_get_member, Ha, (IH Hr).
  destruct (truthy' (member ar "id" JNull)); reflexivity.
Qed.

Lemma truthy_ids_not_dict (items : list (json F)) :
  forallb (is_dict F) items = false -> truthy_ids' items = None.
Proof.
  induction items as [|ar rest IH]; [discriminate|].
  cbn [forallb truthy_ids]. rewrite dict_get_member.
  destruct (is_dict F ar); [|reflexivity]. cbn [andb]. intros H.
  rewrite (IH H). reflexivity.
Qed.

(** X10.  [data_parser_artist] raises exactly when [data] is no dict
    (its own handler calls [data.get]).  On a dict it returns [{}]
    when [attributes] or its [artwork] is present without being a
    dict, and otherwise a record of exactly seven keys, missing values
    replaced by their defaults. *)
Theorem data_parser_artist_outcome data :
  (is_dict F data = false -> data_parser_artist' data = RaisesAttributeError)
  /\ (is_dict F data = true -> artwork_ok data = false ->
      data_parser_artist' data = ReturnsDict ∅)
  /\ (is_dict F data = true -> artwork_ok data = true ->
      exists record,
        data_parser_artist' data = ReturnsDict record
        /\ record <> ∅
        /\ dom record = list_to_set artist_keys
        /\ record !! "object_type" = Some (JStr "artist")
        /\ record !! "object_id" = Some (member data "id" (JStr EmptyString))
        /\ record !! "name"
           = Some (member (member data "attributes" (JObj ∅)) "name" (JStr EmptyString))
        /\ record !! "genreNames"
           = Some (member (member data "attributes" (JObj ∅)) "genreNames" (JArr []))
        /\ record !! "cover_format"
           = Some (member (member (member data "attributes" (JObj ∅)) "artwork" (JObj ∅))
                     "url" (JStr EmptyString))
        /\ record !! "update_time" = Some (JFloat now)).
Proof.
  split_and!.
  - destruct data; try reflexivity. discriminate.
  - intros Hd Hok. apply is_dict_inv in Hd as [d ->].
    unfold data_parser_artist, guarded, artist_record. f_equal.
    unfold artwork_ok in Hok. cbn [member] in Hok. rewrite dict_get_dict.
    destruct (default (JObj ∅) (d !! "attributes")) as [| | | | | |a]; try reflexivity.
    cbn [is_dict andb member] in Hok. rewrite dict_get_dict.
    destruct (default (JObj ∅) (a !! "artwork")) as [| | | | | |w]; try reflexivity.
    discriminate Hok.
  - intros Hd Hok. apply is_dict_inv in Hd as [d ->].
    unfold data_parser_artist, guarded, artist_record.
    unfold artwork_ok in Hok. cbn [member] in *. rewrite dict_get_dict.
    destruct (default (JObj ∅) (d !! "attributes")) as [| | | | | |a];
      try discriminate Hok.
    cbn [is_dict andb member] in *. rewrite !dict_get_dict.
    destruct (default (JObj ∅) (a !! "artwork")) as [| | | | | |w];
      try discriminate Hok.
    destruct (cover_of_dict w) as [cover ->]. cbn [from_option id fst snd member].
    eexists. split; [reflexivity|].
    split_and!; try reflexivity; try (rewrite dom_list_to_map_L; reflexivity).
    intros H. apply (f_equal (fun m => m !! "name")) in H. discriminate H.
Qed.

(** X11.  In the record of [data_parser_album], [artists_id] holds the
    truthy [id] values of [relationships.artists.data], in order;
    a single entry of that list that is not a dict makes the whole
    record [{}]. *)
Theorem data_parser_album_artists data d rel ar (items : list (json F)) :
  data = JObj d -> artwork_ok data = true ->
  d !! "relationships" = Some (JObj rel) ->
  rel !! "artists" = Some (JObj ar) ->
  ar !! "data" = Some (JArr items) ->
  (forallb (is_dict F) items = true ->
   exists record,
     data_parser_album' data = ReturnsDict record
     /\ record !! "artists_id"
        = Some (JArr (List.filter truthy' (map (fun item => member item "id" JNull) items)))
     /\ record !! "object_type" = Some (JStr "album"))
  /\ (forallb (is_dict F) items = false -> data_parser_album' data = ReturnsDict ∅).
Proof.
  intros -> Hok Hrel Har Hitems.
  unfold data_parser_album, guarded, album_record.
  unfold artwork_ok in Hok. cbn [member] in Hok. rewrite dict_get_dict.
  destruct (default (JObj ∅) (d !! "attributes")) as [| | | | | |a];
    try discriminate Hok.
  cbn [is_dict andb member] in Hok. rewrite !dict_get_dict.
  destruct (default (JObj ∅) (a !! "artwork")) as [| | | | | |w];
    try discriminate Hok.
  destruct (cover_of_dict w) as [cover ->]. rewrite Hrel. cbn [from_option id].
  unfold related_ids. rewrite dict_get_dict, Har. cbn [from_option id].
  rewrite dict_get_dict, Hitems. cbn [from_option id py_iter].
  split; intros Hall.
  - rewrite (truthy_ids_dicts _ Hall). eexists. split; [reflexivity|].
    split; reflexivity.
  - rewrite (truthy_ids_not_dict _ Hall). reflexivity.
Qed.

Lemma song_record_lyrics cache data record :
  song_record' cache data = Some record ->
  exists lyric_path lrc_ttml lrc,
    song_ttml' cache (member data "relationships" (JObj ∅)) = Some (lyric_path, lrc_ttml)
    /\ ttml_to_lrc_value' lrc_ttml = Some lrc
    /\ dom record = list_to_set song_keys
    /\ record !! "object_type" = Some (JStr "song")
    /\ record !! "lyric_path" = Some lyric_path
    /\ record !! "lrc_ttml" = Some lrc_ttml
    /\ record !! "lrc" = Some (JStr lrc).
Proof.
  unfold song_record.
  repeat match goal with
         | |- match ?c with Some _ => _ | None => None end = Some _ -> _ =>
             let E := fresh "E" in destruct c eqn:E; [|discriminate]
         end.
  intros [= <-].
  assert (is_dict F data = true) as Hd.
  { destruct data; try discriminate. reflexivity. }
  rewrite dict_get_member, Hd in E0. injection E0 as <-.
  destruct p0 as [lyric_path lrc_ttml]. exists lyric_path, lrc_ttml, s.
  split_and!; try reflexivity; try assumption;
    try (rewrite dom_list_to_map_L; reflexivity).
Qed.

(** X12.  [data_parser_song] is all or nothing: what it returns is
    [{}] or a record of exactly the twenty-one keys, whose [lrc] is
    the transcript [ttml_to_lrc] returns for its [lrc_ttml]. *)
Theorem data_parser_song_all_or_nothing cache data record :
  data_parser_song' cache data = ReturnsDict record ->
  record = ∅
  \/ (dom record = list_to_set song_keys
      /\ record !! "object_type" = Some (JStr "song")
      /\ exists lrc_ttml lrc,
          record !! "lrc_ttml" = Some lrc_ttml
          /\ record !! "lrc" = Some (JStr lrc)
          /\ ttml_to_lrc_value' lrc_ttml = Some lrc).
Proof.
  unfold data_parser_song, guarded. destruct data; try discriminate.
  intros [= <-]. destruct (song_record' cache (JObj o)) as [record|] eqn:E; [|now left].
  right. apply song_record_lyrics in E
    as (lyric_path & lrc_ttml & lrc & _ & Hlrc & Hdom & Htype & _ & Httml & Hl).
  cbn [from_option id]. split_and!; try assumption. now exists lrc_ttml, lrc.
Qed.

(** X13.  A song whose TTML [ttml_to_lrc] rejects is lost whole: when
    the transcoder raises on the chosen [lrc_ttml] (markup the parser
    refuses, a line without begin, a begin that does not normalize),
    [data_parser_song] returns [{}]. *)
Theorem data_parser_song_bad_ttml cache d lyric_path (ttml : string) (e : exn) :
  song_ttml' cache (member (JObj d) "relationships" (JObj ∅))
  = Some (lyric_path, JStr ttml) ->
  ttml_to_lrc fromstring ttml = Raises e ->
  data_parser_song' cache (JObj d) = ReturnsDict ∅.
Proof.
  intros Hsong Hraise.
  unfold data_parser_song, guarded. f_equal.
  destruct (song_record' cache (JObj d)) as [record|] eqn:E; [|reflexivity].
  apply song_record_lyrics in E as (lp & lt & lrc & Hs & Hlrc & _).
  rewrite Hsong in Hs. injection Hs as <- <-.
  unfold ttml_to_lrc_value in Hlrc. rewrite Hraise in Hlrc.
  destruct (truthy' (JStr ttml)) eqn:Ht; [discriminate Hlrc|].
  cbn [truthy] in Ht. apply negb_false_iff, String.eqb_eq in Ht. subst ttml.
  discriminate Hraise.
Qed.

(** X14.  Where the TTML of a song comes from: the [ttml] of the first
    entry of [syllable-lyrics.data] when that is truthy, whatever the
    cache holds; and when [data] is absent or empty, the cache entry
    of the [href] string, [''] when the cache has none. *)
Theorem song_ttml_source cache rel sl :
  rel !! "syllable-lyrics" = Some (JObj sl) ->
  (forall first rest attrs ttml,
     sl !! "data" = Some (JArr (JObj first :: rest)) ->
     first !! "attributes" = Some (JObj attrs) ->
     attrs !! "ttml" = Some ttml -> truthy F float_is_zero ttml = true ->
     song_ttml F float_is_zero cache (JObj rel)
     = Some (default (JStr EmptyString) (sl !! "href"), ttml))
  /\ (forall path,
        sl !! "data" = None \/ sl !! "data" = Some (JArr []) ->
        sl !! "href" = Some (JStr path) ->
        song_ttml F float_is_zero cache (JObj rel)
        = Some (JStr path, default (JStr EmptyString) (cache !! path))).
Proof.
  intros Hsl. unfold song_ttml. rewrite dict_get_dict, Hsl. cbn [from_option id].
  rewrite !dict_get_dict. split.
  - intros first rest attrs ttml Hdata Hattrs Httml Ht.
    rewrite Hdata. cbn [from_option id inline_ttml truthy first_item].
    rewrite dict_get_dict, Hattrs. cbn [from_option id]. rewrite dict_get_dict, Httml.
    cbn [from_option id]. rewrite Ht. reflexivity.
  - intros path Hdata Hhref. rewrite Hhref. cbn [from_option id].
    destruct Hdata as [-> | ->]; cbn [from_option id inline_ttml truthy];
      cbn [negb String.eqb cache_get]; reflexivity.
Qed.

(** X15.  A song dict without [attributes] and without
    [relationships] is not refused: every field takes its default, the
    id lists are empty, the duration is [0 / 1000] and, the cache
    holding nothing for the path [''], the transcript is ['']. *)
Theorem data_parser_song_defaults cache d zero :
  d !! "attributes" = None -> d !! "relationships" = None ->
  cache !! EmptyString = None ->
  int_truediv_1000 0 = Some zero ->
  exists record,
    data_parser_song' cache (JObj d) = ReturnsDict record
    /\ dom record = list_to_set song_keys
    /\ record !! "title" = Some (JStr EmptyString)
    /\ record !! "object_id" = Some (default (JStr EmptyString) (d !! "id"))
    /\ record !! "artists_id" = Some (JArr [])
    /\ record !! "album_id" = Some (JArr [])
    /\ record !! "cover" = Some (JStr EmptyString)
    /\ record !! "duration" = Some (JFloat zero)
    /\ record !! "genreNames" = Some (JArr [])
    /\ record !! "lyric_path" = Some (JStr EmptyString)
    /\ record !! "lrc_ttml" = Some (JStr EmptyString)
    /\ record !! "lrc" = Some (JStr EmptyString).
Proof.
  intros Ha Hr Hc Hz.
  unfold data_parser_song, guarded, song_record.
  cbn [dict_get]. rewrite Ha, Hr. cbn [from_option id].
  unfold related_ids, cover_of, song_ttml.
  repeat (progress cbn [dict_get from_option id py_iter truthy_ids truthy negb String.eqb
                        inline_ttml cache_get fst snd ttml_to_lrc_value truediv_1000]
          || rewrite lookup_empty || rewrite Hc).
  rewrite Hz. eexists. split; [reflexivity|].
  split_and!; reflexivity.
Qed.

Lemma song_record_duration cache data record :
  song_record' cache data = Some record ->
  exists f,
    truediv_1000' (member (member data "attributes" (JObj ∅)) "durationInMillis" (JInt 0))
    = Some f
    /\ record !! "duration" = Some (JFloat f).
Proof.
  unfold song_record.
  repeat match goal with
         | |- match ?c with Some _ => _ | None => None end = Some _ -> _ =>
             let E := fresh "E" in destruct c eqn:E; [|discriminate]
         end.
  intros [= <-].
  repeat match goal with
         | H : dict_get F ?v _ _ = Some _ |- _ =>
             rewrite dict_get_member in H;
             destruct (is_dict F v); [injection H as <-|discriminate H]
         end.
  match goal with H : truediv_1000' _ = Some ?f |- _ => exists f; split; [exact H|] end.
  reflexivity.
Qed.

(** X16.  The [duration] of a returned song record is
    [durationInMillis / 1000]; a [durationInMillis] that is no number
    (a string, [null], a list, a dict) makes the division raise, and the
    whole record is lost. *)
Theorem data_parser_song_duration cache d :
  (forall record,
     data_parser_song' cache (JObj d) = ReturnsDict record -> record <> ∅ ->
     exists f,
       truediv_1000'
         (member (member (JObj d) "attributes" (JObj ∅)) "durationInMillis" (JInt 0))
       = Some f
       /\ record !! "duration" = Some (JFloat f))
  /\ (forall a v,
        d !! "attributes" = Some (JObj a) -> a !! "durationInMillis" = Some v ->
        is_number v = false ->
        data_parser_song' cache (JObj d) = ReturnsDict ∅).
Proof.
  split.
  - intros record. unfold data_parser_song, guarded. intros [= <-] Hne.
    destruct (song_record' cache (JObj d)) as [record|] eqn:E; [|now destruct Hne].
    apply song_record_duration in E. exact E.
  - intros a v Ha Hv Hn. unfold data_parser_song, guarded. f_equal.
    destruct (song_record' cache (JObj d)) as [record|] eqn:E; [|reflexivity].
    apply song_record_duration in E as (f & Hf & _).
    cbn [member] in Hf. rewrite Ha in Hf. cbn [from_option id member] in Hf.
    rewrite Hv in Hf. cbn [from_option id] in Hf.
    destruct v; try discriminate Hn; discriminate Hf.
Qed.

(** X17.  The inner [try] around [format] does not lose the record:
    with an artwork [url] template the artist record is complete,
    [cover_format] is the template, [cover] is what [format] builds
    from it with [width] and [height] defaulting to 2000, and [''] when
    the template is empty or [format] raises. *)
Theorem data_parser_artist_cover d a w template :
  d !! "attributes" = Some (JObj a) -> a !! "artwork" = Some (JObj w) ->
  w !! "url" = Some (JStr template) ->
  exists record,
    data_parser_artist' (JObj d) = ReturnsDict record
    /\ dom record = list_to_set artist_keys
    /\ record !! "cover_format" = Some (JStr template)
    /\ (forall url,
          template <> EmptyString ->
          str_format template (default (JInt 2000) (w !! "width"))
            (default (JInt 2000) (w !! "height")) = Some url ->
          record !! "cover" = Some (JStr url))
    /\ (template = EmptyString
        \/ str_format template (default (JInt 2000) (w !! "width"))
             (default (JInt 2000) (w !! "height")) = None ->
        record !! "cover" = Some (JStr EmptyString)).
Proof.
  intros Ha Hw Hu.
  unfold data_parser_artist, guarded, artist_record.
  rewrite !dict_get_dict, Ha. cbn [from_option id]. rewrite !dict_get_dict, Hw.
  cbn [from_option id]. unfold cover_of. rewrite !dict_get_dict, Hu.
  cbn [from_option id fst snd truthy].
  destruct (String.eqb_spec template EmptyString) as [Et|Et];
    destruct (str_format template _ _) as [formatted|];
    cbn [negb from_option id];
    (eexists; split; [reflexivity|]; split_and!;
     first [ reflexivity
           | intros url Hne Hf;
             first [contradiction | discriminate Hf | injection Hf as <-; reflexivity]
           | intros [H|H]; first [contradiction | discriminate H | reflexivity] ]).
Qed.

End CatalogFacts.

Lemma data_parser_artist_outcome_witness :
  is_dict Q artist_null_attributes = true
  /\ artwork_ok artist_null_attributes = false
  /\ data_parser_artist Q q_is_zero no_format (1 # 1) artist_null_attributes = ReturnsDict ∅.
Proof.
  split; [reflexivity|]. split; [reflexivity|].
  apply (data_parser_artist_outcome q_is_zero no_format (1 # 1) artist_null_attributes);
    reflexivity.
Defined.

Lemma data_parser_album_artists_witness :
  exists record,
    data_parser_album Q q_is_zero no_format (1 # 1) album_three_artists = ReturnsDict record
    /\ record !! "artists_id" = Some (JArr [JStr "a1"; JStr "a2"])
    /\ record !! "object_type" = Some (JStr "album").
Proof.
  apply (data_parser_album_artists q_is_zero no_format (1 # 1) album_three_artists
           (list_to_map
              [("id", JStr "9");
               ("relationships", jdict [("artists", jdict [("data", JArr three_artists)])])])
           (list_to_map [("artists", jdict [("data", JArr three_artists)])])
           (list_to_map [("data", JArr three_artists)])
           three_artists); reflexivity.
Defined.

Lemma data_parser_song_all_or_nothing_witness :
  exists record,
    data_parser_song Q q_is_zero q_int_truediv_1000 q_truediv_1000 no_format (1 # 1)
      (parses_as verse_doc verse_tree) ∅ song_with_verse = ReturnsDict record
    /\ record !! "lrc" = Some (JStr ("[Verse]" +:+ nl +:+ "[00:01.000]hello" +:+ nl))
    /\ (record = ∅
        \/ (dom record = list_to_set song_keys
            /\ record !! "object_type" = Some (JStr "song")
            /\ exists lrc_ttml lrc,
                record !! "lrc_ttml" = Some lrc_ttml
                /\ record !! "lrc" = Some (JStr lrc)
                /\ ttml_to_lrc_value Q q_is_zero (parses_as verse_doc verse_tree) lrc_ttml
                   = Some lrc)).
Proof.
  eexists. split; [vm_compute; reflexivity|]. split; [vm_compute; reflexivity|].
  apply (data_parser_song_all_or_nothing q_is_zero q_int_truediv_1000 q_truediv_1000
           no_format (1 # 1) (parses_as verse_doc verse_tree) ∅ song_with_verse).
  vm_compute. reflexivity.
Defined.

Lemma data_parser_song_bad_ttml_witness :
  ttml_to_lrc (parses_as no_begin_doc no_begin_tree) no_begin_doc = Raises TypeError
  /\ data_parser_song Q q_is_zero q_int_truediv_1000 q_truediv_1000 no_format (1 # 1)
       (parses_as no_begin_doc no_begin_tree) ∅ song_with_bad_ttml = ReturnsDict ∅.
Proof.
  split; [vm_compute; reflexivity|].
  apply (data_parser_song_bad_ttml q_is_zero q_int_truediv_1000 q_truediv_1000 no_format
           (1 # 1) (parses_as no_begin_doc no_begin_tree) ∅ _ (JStr "/lyrics/1")
           no_begin_doc TypeError); vm_compute; reflexivity.
Defined.

Lemma song_ttml_source_witness :
  song_ttml Q q_is_zero cached_lyrics (jdict [("syllable-lyrics", JObj inline_lyrics)])
  = Some (JStr "/lyrics/3", JStr "inline")
  /\ song_ttml Q q_is_zero cached_lyrics (jdict [("syllable-lyrics", JObj href_only)])
     = Some (JStr "/lyrics/3", JStr "cached").
Proof.
  split.
  - assert (Hsl : (list_to_map [("syllable-lyrics", JObj inline_lyrics)]
                   : gmap string (json Q)) !! "syllable-lyrics"
                  = Some (JObj inline_lyrics)) by reflexivity.
    apply (proj1 (song_ttml_source q_is_zero cached_lyrics _ _ Hsl)
             (list_to_map [("attributes", jdict [("ttml", JStr "inline")])]) []
             (list_to_map [("ttml", JStr "inline")]) (JStr "inline"));
      reflexivity.
  - assert (Hsl : (list_to_map [("syllable-lyrics", JObj href_only)]
                   : gmap string (json Q)) !! "syllable-lyrics"
                  = Some (JObj href_only)) by reflexivity.
    apply (proj2 (song_ttml_source q_is_zero cached_lyrics _ _ Hsl) "/lyrics/3");
      [left; reflexivity | reflexivity].
Defined.

Lemma data_parser_song_defaults_witness :
  exists record,
    data_parser_song Q q_is_zero q_int_truediv_1000 q_truediv_1000 no_format (1 # 1)
      (parses_as verse_doc verse_tree) ∅ (JObj song_only_id) = ReturnsDict record
    /\ record !! "object_id" = Some (JStr "5")
    /\ record !! "duration" = Some (JFloat (0 # 1000))
    /\ record !! "lrc" = Some (JStr EmptyString).
Proof.
  edestruct (data_parser_song_defaults q_is_zero q_int_truediv_1000 q_truediv_1000 no_format
               (1 # 1) (parses_as verse_doc verse_tree) ∅ song_only_id (0 # 1000))
    as (record & Hr & _ & _ & Hid & _ & _ & _ & Hd & _ & _ & _ & Hl);
    [reflexivity | reflexivity | reflexivity | reflexivity |].
  exists record. split_and!; assumption.
Defined.

Lemma data_parser_song_duration_witness :
  data_parser_song Q q_is_zero q_int_truediv_1000 q_truediv_1000 no_format (1 # 1)
    (parses_as verse_doc verse_tree) ∅ (JObj song_text_duration) = ReturnsDict ∅.
Proof.
  apply (proj2 (data_parser_song_duration q_is_zero q_int_truediv_1000 q_truediv_1000
                  no_format (1 # 1) (parses_as verse_doc verse_tree) ∅ song_text_duration)
           song_text_duration_attributes (JStr "215000")); reflexivity.
Defined.

Lemma data_parser_artist_cover_witness :
  exists record,
    data_parser_artist Q q_is_zero (formats_as "a/{w}x{h}.{f}" "a/2000x2000.jpg") (1 # 1)
      (JObj artist_with_artwork) = ReturnsDict record
    /\ record !! "cover_format" = Some (JStr "a/{w}x{h}.{f}")
    /\ record !! "cover" = Some (JStr "a/2000x2000.jpg").
Proof.
  edestruct (data_parser_artist_cover q_is_zero
               (formats_as "a/{w}x{h}.{f}" "a/2000x2000.jpg") (1 # 1)
               artist_with_artwork artist_attributes artist_artwork "a/{w}x{h}.{f}")
    as (record & Hr & _ & Hf & Hc & _); [reflexivity | reflexivity | reflexivity |].
  exists record. split_and!; [exact Hr | exact Hf |].
  apply Hc; [discriminate | reflexivity].
Defined.
